(** * Vulkan examples: host-side orchestration of the compute example

    A shallow embedding of [vector_add/vector_add.cpp] (and of the
    descriptor-pool and teardown fragments of [triangle/triangle.cpp] and
    [example.cpp]).  The Vulkan driver is an external collaborator: every
    value it hands back (result codes, enumerated devices, memory
    requirements, memory types, initial memory contents) is a field of the
    [Driver] record, and [main] is a function of that record.  The calls
    [main] makes are recorded, in order, in a trace.

    The embedding follows the default build (ENABLE_LAYERS undefined). *)

From Stdlib Require Import ZArith Lia.
From Stdlib Require Import String.
From Equations Require Import Equations.
From stdpp Require Import base numbers list functions.

Local Open Scope Z_scope.

(** ** Machine integers *)

Module Int.

(** [uint32_t] / [uint64_t] (VkDeviceSize) wrap-around. *)
Definition uint32 (x : Z) : Z := x mod 2 ^ 32.
Definition uint64 (x : Z) : Z := x mod 2 ^ 64.

(** [int32_t] two's complement wrap-around. *)
Definition int32 (x : Z) : Z := (x + 2 ^ 31) mod 2 ^ 32 - 2 ^ 31.

(** [~x] on [int]. *)
Definition bitnot (x : Z) : Z := int32 (Z.lnot x).

End Int.

Import Int.

(** ** Constants of <vulkan/vulkan.h> used by the examples *)

Definition VkResult := Z.
Definition VK_SUCCESS : VkResult := 0.
Definition VK_NULL_HANDLE : Z := 0.
Definition VK_QUEUE_GRAPHICS_BIT : Z := 1.
Definition VK_QUEUE_COMPUTE_BIT : Z := 2.
Definition VK_MEMORY_PROPERTY_DEVICE_LOCAL_BIT : Z := 1.
Definition VK_MEMORY_PROPERTY_HOST_VISIBLE_BIT : Z := 2.
Definition VK_MEMORY_PROPERTY_HOST_COHERENT_BIT : Z := 4.
Definition VK_MEMORY_PROPERTY_HOST_CACHED_BIT : Z := 8.
Definition VK_MAX_MEMORY_TYPES : Z := 32.
Definition VK_DESCRIPTOR_TYPE_UNIFORM_BUFFER : Z := 6.
Definition VK_DESCRIPTOR_TYPE_STORAGE_BUFFER : Z := 7.
Definition VK_SHADER_STAGE_VERTEX_BIT : Z := 1.
Definition VK_SHADER_STAGE_COMPUTE_BIT : Z := 32.

(** ** Data handed back by the driver *)

Record VkMemoryType := { propertyFlags : Z; heapIndex : Z }.

Record VkPhysicalDeviceMemoryProperties := {
  memoryTypeCount : Z;
  memoryTypes : list VkMemoryType  (* VkMemoryType[VK_MAX_MEMORY_TYPES] *)
}.

Record VkMemoryRequirements := {
  size : Z;            (* VkDeviceSize *)
  alignment : Z;       (* VkDeviceSize *)
  memoryTypeBits : Z   (* uint32_t *)
}.

Record VkQueueFamilyProperties := { queueFlags : Z; queueCount : Z }.

(** A physical device as the two enumeration calls present it: its handle
    and the vector filled by vkGetPhysicalDeviceQueueFamilyProperties. *)
Record PhysicalDevice := {
  handle : Z;
  queueFamilyProperties : list VkQueueFamilyProperties
}.

(** ** findMemoryTypeFromProperties (vector_add.cpp:31-41) *)

(** [properties.memoryTypes[index].propertyFlags] *)
Definition propertyFlagsAt (properties : VkPhysicalDeviceMemoryProperties)
    (index : Z) : Z :=
  match memoryTypes properties !! Z.to_nat index with
  | Some t => propertyFlags t
  | None => 0
  end.

(** The body of the [for] loop, [remaining] iterations from [index] on. *)
Fixpoint findMemoryTypeLoop (remaining : nat) (index : Z) (memoryTypeBits : Z)
    (properties : VkPhysicalDeviceMemoryProperties) (requiredProperties : Z)
    : Z :=
  match remaining with
  | O => -1
  | S remaining' =>
      if negb (Z.land memoryTypeBits (uint32 (Z.shiftl 1 index)) =? 0)
         && (propertyFlagsAt properties index =? requiredProperties)
      then index
      else findMemoryTypeLoop remaining' (index + 1) memoryTypeBits properties
             requiredProperties
  end.

Definition findMemoryTypeFromProperties (memoryTypeBits : Z)
    (properties : VkPhysicalDeviceMemoryProperties) (requiredProperties : Z)
    : Z :=
  findMemoryTypeLoop (Z.to_nat (memoryTypeCount properties)) 0 memoryTypeBits
    properties requiredProperties.

(** The driver fills at most VK_MAX_MEMORY_TYPES entries. *)
Definition wf_memory_properties (p : VkPhysicalDeviceMemoryProperties) : Prop :=
  0 <= memoryTypeCount p <= VK_MAX_MEMORY_TYPES /\
  Z.of_nat (length (memoryTypes p)) = VK_MAX_MEMORY_TYPES.

(** Index [i] is usable for [bits] and has exactly the flags [req]. *)
Definition exact_match (bits : Z) (p : VkPhysicalDeviceMemoryProperties)
    (req : Z) (i : Z) : Prop :=
  Z.testbit bits i = true /\ propertyFlagsAt p i = req.

(** ** Device and queue family selection (vector_add.cpp:113-137) *)

(** The inner range-for with its counter [index]; [Some index] is the
    [break] with [queueFamilyIndex = index]. *)
Fixpoint findQueueFamily (bit : Z) (props : list VkQueueFamilyProperties)
    (index : Z) : option Z :=
  match props with
  | [] => None
  | properties :: rest =>
      if Z.land (queueFlags properties) bit =? 0
      then findQueueFamily bit rest (uint32 (index + 1))
      else Some index
  end.

(** The outer range-for; [physicalDevice] and [queueFamilyIndex] are the two
    locals it assigns. *)
Fixpoint selectDeviceLoop (bit : Z) (physicalDevices : list PhysicalDevice)
    (physicalDevice queueFamilyIndex : Z) : Z * Z :=
  match physicalDevices with
  | [] => (physicalDevice, queueFamilyIndex)
  | device :: rest =>
      let '(physicalDevice', queueFamilyIndex') :=
        match findQueueFamily bit (queueFamilyProperties device) 0 with
        | Some index => (handle device, index)
        | None => (physicalDevice, queueFamilyIndex)
        end in
      if physicalDevice' =? VK_NULL_HANDLE
      then selectDeviceLoop bit rest physicalDevice' queueFamilyIndex'
      else (physicalDevice', queueFamilyIndex')
  end.

Definition selectDevice (bit : Z) (physicalDevices : list PhysicalDevice)
    : Z * Z :=
  selectDeviceLoop bit physicalDevices VK_NULL_HANDLE 0.

(** A queue family has the capability [bit]. *)
Definition has_capability (bit : Z) (q : VkQueueFamilyProperties) : Prop :=
  Z.land (queueFlags q) bit <> 0.

(** No queue family of the device has the capability. *)
Definition incapable (bit : Z) (d : PhysicalDevice) : Prop :=
  Forall (fun q => ~ has_capability bit q) (queueFamilyProperties d).

(** ** Objects and calls *)

Inductive Buffer := bufferA | bufferB | bufferResult.

(** The Vulkan objects [main] holds a handle to, named after its locals. *)
Inductive Object :=
| o_instance | o_device | o_setLayout | o_pipelineLayout | o_shaderModule
| o_pipeline | o_buffer (b : Buffer) | o_memory | o_descriptorPool
| o_descriptorSet | o_commandPool | o_commandBuffer.

Record VkDescriptorSetLayoutBinding := {
  binding : Z;
  descriptorType : Z;
  descriptorCount : Z;
  stageFlags : Z
}.

(** VkDescriptorPoolSize { type; descriptorCount } *)
Record VkDescriptorPoolSize := { type : Z; poolDescriptorCount : Z }.

(** VkDescriptorBufferInfo { buffer; offset; range } *)
Record VkDescriptorBufferInfo := {
  infoBuffer : Buffer;
  infoOffset : Z;
  infoRange : Z
}.

Record VkWriteDescriptorSet := {
  dstBinding : Z;
  dstArrayElement : Z;
  writeDescriptorCount : Z;
  writeDescriptorType : Z;
  pBufferInfo : VkDescriptorBufferInfo
}.

(** The calls of [main] that reach the driver or the standard streams, with
    the arguments the claims are about. *)
Inductive Call :=
| vkCreateInstance
| vkEnumeratePhysicalDevices
| vkGetPhysicalDeviceQueueFamilyProperties (physicalDevice : Z)
| vkCreateDevice (physicalDevice queueFamilyIndex : Z)
| vkGetDeviceQueue (queueFamilyIndex : Z)
| vkCreateDescriptorSetLayout (pBindings : list VkDescriptorSetLayoutBinding)
| vkCreatePipelineLayout
| vkCreateShaderModule
| vkCreateComputePipelines
| vkDestroyShaderModule
| vkCreateBuffer (b : Buffer) (bytes : Z)
| vkGetBufferMemoryRequirements (b : Buffer)
| vkGetPhysicalDeviceMemoryProperties (physicalDevice : Z)
| vkAllocateMemory (allocationSize memoryTypeIndex : Z)
| vkBindBufferMemory (b : Buffer) (memoryOffset : Z)
| vkCreateDescriptorPool (maxSets : Z) (pPoolSizes : list VkDescriptorPoolSize)
| vkAllocateDescriptorSets
| vkUpdateDescriptorSets (writes : list VkWriteDescriptorSet)
| vkCreateCommandPool (queueFamilyIndex : Z)
| vkAllocateCommandBuffers
| vkBeginCommandBuffer
| vkCmdBindPipeline
| vkCmdBindDescriptorSets
| vkCmdDispatch (x y z : Z)
| vkEndCommandBuffer
| vkMapMemory
| vkUnmapMemory
| vkQueueSubmit
| vkQueueWaitIdle
| fprintf_stderr (index got expected : Z)
| vkDestroyCommandPool
| vkFreeMemory
| vkDestroyBuffer (b : Buffer)
| vkDestroyDescriptorPool
| vkDestroyPipeline
| vkDestroyPipelineLayout
| vkDestroyDescriptorSetLayout
| vkDestroyDevice
| vkDestroyInstance
| printf_success.

(** The call sites whose VkResult [main] reads, plus vkQueueSubmit, whose
    result decides whether the device runs the batch. *)
Inductive Site :=
| atCreateInstance | atEnumerateCount | atEnumerateDevices | atCreateDevice
| atCreateDescriptorSetLayout | atCreateComputePipelines
| atCreateBuffer (b : Buffer) | atAllocateMemory
| atBindBufferMemory (b : Buffer) | atAllocateDescriptorSets
| atCreateCommandPool | atAllocateCommandBuffers | atEndCommandBuffer
| atMapMemoryWrite | atQueueSubmit | atMapMemoryRead.

(** The device memory block seen through the [int32_t *data] mapping:
    word index (relative to [data]) to value. *)
Abbreviation Memory := (Z -> Z).

Record Driver := {
  result : Site -> VkResult;
  physicalDevices : list PhysicalDevice;
  getBufferMemoryRequirements : Buffer -> VkMemoryRequirements;
  getPhysicalDeviceMemoryProperties : Z -> VkPhysicalDeviceMemoryProperties;
  (* contents of the freshly allocated block: indeterminate *)
  initialMemory : Memory
}.

(** ** The monad of [main]: trace, memory, early return *)

Inductive Outcome :=
| Return (code : Z)   (* [return code;] from main *)
| Crash.              (* dereference of a null [data] pointer *)

Record Step (A : Type) := mkStep {
  calls : list Call;
  mem : Memory;
  next : Outcome + A
}.
Arguments mkStep {A}.
Arguments calls {A}.
Arguments mem {A}.
Arguments next {A}.

Definition Prog (A : Type) := Memory -> Step A.

Definition ret {A} (a : A) : Prog A := fun m => mkStep [] m (inr a).

Definition bind {A B} (p : Prog A) (f : A -> Prog B) : Prog B := fun m =>
  let s := p m in
  match next s with
  | inl o => mkStep (calls s) (mem s) (inl o)
  | inr a => let s' := f a (mem s) in
             mkStep (calls s ++ calls s') (mem s') (next s')
  end.

Declare Scope prog_scope.
Delimit Scope prog_scope with prog.
Notation "'do' x <- p ; q" := (bind p (fun x => q))
  (at level 10, x pattern, p at level 100, q at level 200) : prog_scope.
Notation "'exec' p ; q" := (bind p (fun _ => q))
  (at level 10, p at level 100, q at level 200) : prog_scope.
Local Open Scope prog_scope.

Definition call (c : Call) : Prog unit := fun m => mkStep [c] m (inr tt).
Definition exit {A} (code : Z) : Prog A := fun m => mkStep [] m (inl (Return code)).
Definition crash {A} : Prog A := fun m => mkStep [] m (inl Crash).
Definition modify (f : Memory -> Memory) : Prog unit :=
  fun m => mkStep [] (f m) (inr tt).
Definition emit (f : Memory -> list Call) : Prog unit :=
  fun m => mkStep (f m) m (inr tt).

(** [if (error) { return error; }] *)
Definition fail_if (error : VkResult) : Prog unit :=
  if error =? 0 then ret tt else exit error.

(** [error = vkX(...); if (error) { return error; }] *)
Definition vk (drv : Driver) (c : Call) (s : Site) : Prog unit :=
  exec call c; fail_if (result drv s).

(** ** main of vector_add.cpp, phase by phase *)

Definition elements : Z := 1024.

(** Lines 113-137: the selection loops together with the two
    vkGetPhysicalDeviceQueueFamilyProperties calls made per visited device.
    The value computed is that of [selectDeviceLoop]. *)
Fixpoint selectDeviceProg (bit : Z) (physicalDevices : list PhysicalDevice)
    (physicalDevice queueFamilyIndex : Z) : Prog (Z * Z) :=
  match physicalDevices with
  | [] => ret (physicalDevice, queueFamilyIndex)
  | device :: rest =>
      exec call (vkGetPhysicalDeviceQueueFamilyProperties (handle device));
      exec call (vkGetPhysicalDeviceQueueFamilyProperties (handle device));
      let '(physicalDevice', queueFamilyIndex') :=
        match findQueueFamily bit (queueFamilyProperties device) 0 with
        | Some index => (handle device, index)
        | None => (physicalDevice, queueFamilyIndex)
        end in
      if physicalDevice' =? VK_NULL_HANDLE
      then selectDeviceProg bit rest physicalDevice' queueFamilyIndex'
      else ret (physicalDevice', queueFamilyIndex')
  end.

(** Lines 43-165: instance, device enumeration and selection, logical
    device, queue.  Yields [(physicalDevice, queueFamilyIndex)]. *)
Definition createContext (drv : Driver) : Prog (Z * Z) :=
  exec vk drv vkCreateInstance atCreateInstance;
  exec vk drv vkEnumeratePhysicalDevices atEnumerateCount;
  exec vk drv vkEnumeratePhysicalDevices atEnumerateDevices;
  do sel <- selectDeviceProg VK_QUEUE_COMPUTE_BIT (physicalDevices drv)
              VK_NULL_HANDLE 0;
  exec vk drv (vkCreateDevice (fst sel) (snd sel)) atCreateDevice;
  exec call (vkGetDeviceQueue (snd sel));
  ret sel.

(** [layoutBinding.binding = b;] on the reused struct. *)
Definition set_binding (b : Z) (lb : VkDescriptorSetLayoutBinding)
    : VkDescriptorSetLayoutBinding :=
  {| binding := b; descriptorType := descriptorType lb;
     descriptorCount := descriptorCount lb; stageFlags := stageFlags lb |}.

(** Lines 168-187: the vector [layoutBindings] after the three push_backs. *)
Definition layoutBindings : list VkDescriptorSetLayoutBinding :=
  let layoutBinding :=
    {| binding := 0; descriptorType := VK_DESCRIPTOR_TYPE_STORAGE_BUFFER;
       descriptorCount := 1; stageFlags := VK_SHADER_STAGE_COMPUTE_BIT |} in
  let v := [layoutBinding] in
  let layoutBinding := set_binding 1 layoutBinding in
  let v := v ++ [layoutBinding] in
  let layoutBinding := set_binding 2 layoutBinding in
  v ++ [layoutBinding].

(** Lines 192-243.  The results of vkCreatePipelineLayout and
    vkCreateShaderModule are assigned to [error] and never tested. *)
Definition createPipeline (drv : Driver)
    (layoutBindings : list VkDescriptorSetLayoutBinding) : Prog unit :=
  exec vk drv (vkCreateDescriptorSetLayout layoutBindings)
         atCreateDescriptorSetLayout;
  exec call vkCreatePipelineLayout;
  exec call vkCreateShaderModule;
  exec vk drv vkCreateComputePipelines atCreateComputePipelines;
  call vkDestroyShaderModule.

(** Lines 246-271; [bufferCreateInfo.size = sizeof(uint32_t) * elements]. *)
Definition createBuffers (drv : Driver) : Prog unit :=
  let bufferCreateInfo_size := uint64 (4 * elements) in
  exec vk drv (vkCreateBuffer bufferA bufferCreateInfo_size)
         (atCreateBuffer bufferA);
  exec vk drv (vkCreateBuffer bufferB bufferCreateInfo_size)
         (atCreateBuffer bufferB);
  vk drv (vkCreateBuffer bufferResult bufferCreateInfo_size)
     (atCreateBuffer bufferResult).

(** Lines 277-337: memory requirements, memory type, allocation, binds.
    All three vkGetBufferMemoryRequirements calls name [bufferA].
    Yields the three bind offsets (bytes). *)
Definition allocateAndBind (drv : Driver) (physicalDevice : Z)
    : Prog (Z * Z * Z) :=
  let requiredMemorySize := 0 in
  exec call (vkGetBufferMemoryRequirements bufferA);
  let bufferAMemoryRequirements := getBufferMemoryRequirements drv bufferA in
  let requiredMemorySize :=
    uint64 (requiredMemorySize + size bufferAMemoryRequirements) in
  exec call (vkGetBufferMemoryRequirements bufferA);
  let bufferBMemoryRequirements := getBufferMemoryRequirements drv bufferA in
  let requiredMemorySize :=
    uint64 (requiredMemorySize + size bufferBMemoryRequirements) in
  exec call (vkGetBufferMemoryRequirements bufferA);
  let bufferResultMemoryRequirements :=
    getBufferMemoryRequirements drv bufferA in
  let requiredMemorySize :=
    uint64 (requiredMemorySize + size bufferResultMemoryRequirements) in
  exec call (vkGetPhysicalDeviceMemoryProperties physicalDevice);
  let memoryProperties :=
    getPhysicalDeviceMemoryProperties drv physicalDevice in
  let memoryTypeIndex :=
    findMemoryTypeFromProperties (memoryTypeBits bufferAMemoryRequirements)
      memoryProperties
      (Z.lor VK_MEMORY_PROPERTY_HOST_VISIBLE_BIT
             VK_MEMORY_PROPERTY_HOST_COHERENT_BIT) in
  if 0 >? memoryTypeIndex then exit (bitnot 42) else
  exec vk drv (vkAllocateMemory requiredMemorySize memoryTypeIndex)
         atAllocateMemory;
  let memoryOffset := 0 in
  let offsetA := memoryOffset in
  exec vk drv (vkBindBufferMemory bufferA memoryOffset)
         (atBindBufferMemory bufferA);
  let memoryOffset := uint64 (memoryOffset + size bufferAMemoryRequirements) in
  let offsetB := memoryOffset in
  exec vk drv (vkBindBufferMemory bufferB memoryOffset)
         (atBindBufferMemory bufferB);
  let memoryOffset := uint64 (memoryOffset + size bufferBMemoryRequirements) in
  let offsetResult := memoryOffset in
  exec vk drv (vkBindBufferMemory bufferResult memoryOffset)
         (atBindBufferMemory bufferResult);
  ret (offsetA, offsetB, offsetResult).

(** Lines 352-356: the single pool size, from the layout binding vector. *)
Definition poolSize (layoutBindings : list VkDescriptorSetLayoutBinding)
    : VkDescriptorPoolSize :=
  {| type := VK_DESCRIPTOR_TYPE_STORAGE_BUFFER;
     poolDescriptorCount := uint32 (Z.of_nat (length layoutBindings)) |}.

(** Lines 344-376.  The result of vkCreateDescriptorPool is discarded. *)
Definition createDescriptorSet (drv : Driver)
    (layoutBindings : list VkDescriptorSetLayoutBinding) : Prog unit :=
  exec call (vkCreateDescriptorPool 1 [poolSize layoutBindings]);
  vk drv vkAllocateDescriptorSets atAllocateDescriptorSets.

Definition VK_WHOLE_SIZE : Z := 2 ^ 64 - 1.

(** [writeDescriptorSet.dstBinding = b; .pBufferInfo = &info;] *)
Definition set_write (b : Z) (info : VkDescriptorBufferInfo)
    (w : VkWriteDescriptorSet) : VkWriteDescriptorSet :=
  {| dstBinding := b; dstArrayElement := dstArrayElement w;
     writeDescriptorCount := writeDescriptorCount w;
     writeDescriptorType := writeDescriptorType w; pBufferInfo := info |}.

(** Lines 379-414: the vector [descriptorSetWrites] after the push_backs. *)
Definition descriptorSetWrites : list VkWriteDescriptorSet :=
  let bufferAInfo :=
    {| infoBuffer := bufferA; infoOffset := 0; infoRange := VK_WHOLE_SIZE |} in
  let writeDescriptorSet :=
    {| dstBinding := 0; dstArrayElement := 0; writeDescriptorCount := 1;
       writeDescriptorType := VK_DESCRIPTOR_TYPE_STORAGE_BUFFER;
       pBufferInfo := bufferAInfo |} in
  let v := [writeDescriptorSet] in
  let bufferBInfo :=
    {| infoBuffer := bufferB; infoOffset := 0; infoRange := VK_WHOLE_SIZE |} in
  let writeDescriptorSet := set_write 1 bufferBInfo writeDescriptorSet in
  let v := v ++ [writeDescriptorSet] in
  let bufferResultInfo :=
    {| infoBuffer := bufferResult; infoOffset := 0;
       infoRange := VK_WHOLE_SIZE |} in
  let writeDescriptorSet := set_write 2 bufferResultInfo writeDescriptorSet in
  v ++ [writeDescriptorSet].

(** Lines 416-466: the descriptor update with the vector built above, the
    command pool and buffer, and the recorded commands.  Nothing here reads
    [descriptorSetWrites] other than the vkUpdateDescriptorSets call. *)
Definition updateAndRecord (drv : Driver)
    (descriptorSetWrites : list VkWriteDescriptorSet) (queueFamilyIndex : Z)
    : Prog unit :=
  exec call (vkUpdateDescriptorSets descriptorSetWrites);
  exec vk drv (vkCreateCommandPool queueFamilyIndex) atCreateCommandPool;
  exec vk drv vkAllocateCommandBuffers atAllocateCommandBuffers;
  exec call vkBeginCommandBuffer;
  exec call vkCmdBindPipeline;
  exec call vkCmdBindDescriptorSets;
  exec call (vkCmdDispatch elements 1 1);
  vk drv vkEndCommandBuffer atEndCommandBuffer.

(** Lines 485-491: [remaining] iterations of the initialisation loop from
    [index] on; the pointers are word indices into the mapping. *)
Fixpoint writeLoop (remaining : nat) (index : Z) (aData bData resultData : Z)
    (m : Memory) : Memory :=
  match remaining with
  | O => m
  | S remaining' =>
      let m := <[aData + index := index]> m in
      let m := <[bData + index := int32 (- index)]> m in
      let m := <[resultData + index := 42]> m in
      writeLoop remaining' (int32 (index + 1)) aData bData resultData m
  end.

(** Lines 470-493: first mapping window.  [resultData] is set to
    [data + elements], the same address as [bData] (line 483). *)
Definition writeInputs (drv : Driver) : Prog unit :=
  exec vk drv vkMapMemory atMapMemoryWrite;
  let data := 0 in
  let dataOffset := 0 in
  let aData := data in
  let dataOffset := dataOffset + elements in
  let bData := data + elements in
  let dataOffset := dataOffset + elements in
  let resultData := data + elements in
  exec modify (writeLoop (Z.to_nat elements) 0 aData bData resultData);
  call vkUnmapMemory.

(** Modelled from the spec: the compute shader vector_add.comp is not under
    src/; the spec gives its effect as R[i] = A[i] + B[i] for every i below
    the element count, on 32-bit integers.  [a], [b], [r] are the word
    indices at which the buffers of bindings 0, 1, 2 start in the block. *)
Fixpoint vector_add (remaining : nat) (i : Z) (a b r : Z) (m : Memory)
    : Memory :=
  match remaining with
  | O => m
  | S remaining' =>
      vector_add remaining' (i + 1) a b r
        (<[r + i := int32 (m (a + i) + m (b + i))]> m)
  end.

(** The recorded batch: one dispatch of [elements] work groups over the
    descriptor set written by [descriptorSetWrites], i.e. over bufferA,
    bufferB and bufferResult at the byte offsets they were bound to. *)
Definition deviceExecute (offsets : Z * Z * Z) : Memory -> Memory :=
  let '(offsetA, offsetB, offsetResult) := offsets in
  vector_add (Z.to_nat elements) 0 (offsetA / 4) (offsetB / 4)
    (offsetResult / 4).

(** Lines 498-504.  Neither result is read by [main]; the device runs the
    batch when the submission is accepted. *)
Definition submitAndWait (drv : Driver) (offsets : Z * Z * Z) : Prog unit :=
  exec call vkQueueSubmit;
  exec (if result drv atQueueSubmit =? 0
        then modify (deviceExecute offsets) else ret tt);
  call vkQueueWaitIdle.

(** Lines 516-521: the verification loop and what it prints. *)
Fixpoint verifyLoop (remaining : nat) (index : Z) (aData bData resultData : Z)
    (m : Memory) : list Call :=
  match remaining with
  | O => []
  | S remaining' =>
      let expected := int32 (m (aData + index) + m (bData + index)) in
      (if m (resultData + index) =? expected then []
       else [fprintf_stderr index (m (resultData + index)) expected])
      ++ verifyLoop remaining' (uint32 (index + 1)) aData bData resultData m
  end.

(** Lines 507-523: second mapping window.  The result of this vkMapMemory is
    not tested; on failure [data] stays null and the loop reads through it. *)
Definition readBack (drv : Driver) : Prog unit :=
  exec call vkMapMemory;
  if result drv atMapMemoryRead =? 0 then
    let data := 0 in
    let dataOffset := 0 in
    let aData := data in
    let dataOffset := dataOffset + elements in
    let bData := data + dataOffset in
    let dataOffset := dataOffset + elements in
    let resultData := data + dataOffset in
    exec emit (verifyLoop (Z.to_nat elements) 0 aData bData resultData);
    call vkUnmapMemory
  else crash.

(** Lines 525-543. *)
Definition teardown : Prog unit :=
  exec call vkDestroyCommandPool;
  exec call vkFreeMemory;
  exec call (vkDestroyBuffer bufferResult);
  exec call (vkDestroyBuffer bufferB);
  exec call (vkDestroyBuffer bufferA);
  exec call vkDestroyDescriptorPool;
  exec call vkDestroyPipeline;
  exec call vkDestroyPipelineLayout;
  exec call vkDestroyDescriptorSetLayout;
  exec call vkDestroyDevice;
  exec call vkDestroyInstance;
  exec call printf_success;
  exit 0.

(** Lines 468-544: everything after the command buffer is recorded. *)
Definition executeBatch (drv : Driver) (offsets : Z * Z * Z) : Prog unit :=
  exec writeInputs drv;
  exec submitAndWait drv offsets;
  exec readBack drv;
  teardown.

(** Lines 43-466: everything up to and including vkEndCommandBuffer.
    Yields the bind offsets. *)
Definition setup (drv : Driver) : Prog (Z * Z * Z) :=
  do sel <- createContext drv;
  let physicalDevice := fst sel in
  let queueFamilyIndex := snd sel in
  exec createPipeline drv layoutBindings;
  exec createBuffers drv;
  do offsets <- allocateAndBind drv physicalDevice;
  exec createDescriptorSet drv layoutBindings;
  exec updateAndRecord drv descriptorSetWrites queueFamilyIndex;
  ret offsets.

Definition main (drv : Driver) : Prog unit :=
  do offsets <- setup drv;
  executeBatch drv offsets.

(** One run of the program against a driver. *)
Definition run (drv : Driver) : Step unit := main drv (initialMemory drv).

Definition trace (drv : Driver) : list Call := calls (run drv).
Definition outcome (drv : Driver) : option Outcome :=
  match next (run drv) with inl o => Some o | inr _ => None end.
Definition finalMemory (drv : Driver) : Memory := mem (run drv).

(** ** Drivers used as concrete inputs *)

Definition memoryType (flags : Z) : VkMemoryType :=
  {| propertyFlags := flags; heapIndex := 0 |}.

(** [VkMemoryType[32]] whose first entries are [flags], the rest zeroed. *)
Definition memoryTypeTable (flags : list Z) : VkPhysicalDeviceMemoryProperties :=
  {| memoryTypeCount := Z.of_nat (length flags);
     memoryTypes := map memoryType flags
                    ++ replicate (32 - length flags)%nat (memoryType 0) |}.

Definition queueFamily (flags : Z) : VkQueueFamilyProperties :=
  {| queueFlags := flags; queueCount := 1 |}.

(** Every call succeeds; one device (handle 4096) whose family 0 has
    graphics|compute|transfer; buffers need 4096 bytes aligned to 16, any
    memory type; memory type 0 is device-local, type 1 host-visible and
    coherent.  The block initially holds 7 everywhere. *)
Definition nominal_driver : Driver :=
  {| result := fun _ => VK_SUCCESS;
     physicalDevices :=
       [ {| handle := 4096; queueFamilyProperties := [queueFamily 7] |} ];
     getBufferMemoryRequirements := fun _ =>
       {| size := 4096; alignment := 16; memoryTypeBits := 3 |};
     getPhysicalDeviceMemoryProperties := fun _ => memoryTypeTable [1; 6];
     initialMemory := fun _ => 7 |}.

(** ** What a complete run looks like *)

Definition HOST_VISIBLE_COHERENT : Z :=
  Z.lor VK_MEMORY_PROPERTY_HOST_VISIBLE_BIT VK_MEMORY_PROPERTY_HOST_COHERENT_BIT.

(** The device and queue family [main] goes on with. *)
Definition selected (drv : Driver) : Z * Z :=
  selectDevice VK_QUEUE_COMPUTE_BIT (physicalDevices drv).

(** The value of [memoryTypeIndex] at line 295. *)
Definition memoryTypeIndexOf (drv : Driver) : Z :=
  findMemoryTypeFromProperties
    (memoryTypeBits (getBufferMemoryRequirements drv bufferA))
    (getPhysicalDeviceMemoryProperties drv (fst (selected drv)))
    HOST_VISIBLE_COHERENT.

(** The three bind offsets of lines 318-334. *)
Definition bindOffsets (drv : Driver) : Z * Z * Z :=
  let a := size (getBufferMemoryRequirements drv bufferA) in
  (0, uint64 (0 + a), uint64 (uint64 (0 + a) + a)).

(** The value of [requiredMemorySize] at line 308. *)
Definition requiredMemorySizeOf (drv : Driver) : Z :=
  let a := size (getBufferMemoryRequirements drv bufferA) in
  uint64 (uint64 (uint64 (0 + a) + a) + a).

(** The block after the first mapping window, and after the batch. *)
Definition writtenMemory (drv : Driver) : Memory :=
  writeLoop (Z.to_nat elements) 0 0 (0 + elements) (0 + elements)
    (initialMemory drv).

Definition executedMemory (drv : Driver) : Memory :=
  if result drv atQueueSubmit =? 0
  then deviceExecute (bindOffsets drv) (writtenMemory drv)
  else writtenMemory drv.

Definition selectionCalls (drv : Driver) : list Call :=
  calls (selectDeviceProg VK_QUEUE_COMPUTE_BIT (physicalDevices drv)
           VK_NULL_HANDLE 0 (initialMemory drv)).

Definition mismatchReports (drv : Driver) : list Call :=
  verifyLoop (Z.to_nat elements) 0 0 (0 + (0 + elements))
    (0 + (0 + elements + elements)) (executedMemory drv).

(** Calls of lines 43-466 when no check fails. *)
Definition setupCalls (drv : Driver) : list Call :=
  [vkCreateInstance; vkEnumeratePhysicalDevices; vkEnumeratePhysicalDevices]
  ++ selectionCalls drv
  ++ [vkCreateDevice (fst (selected drv)) (snd (selected drv));
      vkGetDeviceQueue (snd (selected drv));
      vkCreateDescriptorSetLayout layoutBindings;
      vkCreatePipelineLayout; vkCreateShaderModule; vkCreateComputePipelines;
      vkDestroyShaderModule;
      vkCreateBuffer bufferA (uint64 (4 * elements));
      vkCreateBuffer bufferB (uint64 (4 * elements));
      vkCreateBuffer bufferResult (uint64 (4 * elements));
      vkGetBufferMemoryRequirements bufferA;
      vkGetBufferMemoryRequirements bufferA;
      vkGetBufferMemoryRequirements bufferA;
      vkGetPhysicalDeviceMemoryProperties (fst (selected drv));
      vkAllocateMemory (requiredMemorySizeOf drv) (memoryTypeIndexOf drv);
      vkBindBufferMemory bufferA (fst (fst (bindOffsets drv)));
      vkBindBufferMemory bufferB (snd (fst (bindOffsets drv)));
      vkBindBufferMemory bufferResult (snd (bindOffsets drv));
      vkCreateDescriptorPool 1 [poolSize layoutBindings];
      vkAllocateDescriptorSets;
      vkUpdateDescriptorSets descriptorSetWrites;
      vkCreateCommandPool (snd (selected drv));
      vkAllocateCommandBuffers;
      vkBeginCommandBuffer; vkCmdBindPipeline; vkCmdBindDescriptorSets;
      vkCmdDispatch elements 1 1; vkEndCommandBuffer].

(** Calls of lines 468-543 when no check fails. *)
Definition batchCalls (drv : Driver) : list Call :=
  [vkMapMemory; vkUnmapMemory; vkQueueSubmit; vkQueueWaitIdle; vkMapMemory]
  ++ mismatchReports drv
  ++ [vkUnmapMemory;
      vkDestroyCommandPool; vkFreeMemory; vkDestroyBuffer bufferResult;
      vkDestroyBuffer bufferB; vkDestroyBuffer bufferA;
      vkDestroyDescriptorPool; vkDestroyPipeline; vkDestroyPipelineLayout;
      vkDestroyDescriptorSetLayout; vkDestroyDevice; vkDestroyInstance;
      printf_success].

Definition completeTrace (drv : Driver) : list Call :=
  setupCalls drv ++ batchCalls drv.

(** The sites whose result [main] tests with [if (error) return error;]. *)
Definition checkedSites : list Site :=
  [atCreateInstance; atEnumerateCount; atEnumerateDevices; atCreateDevice;
   atCreateDescriptorSetLayout; atCreateComputePipelines;
   atCreateBuffer bufferA; atCreateBuffer bufferB; atCreateBuffer bufferResult;
   atAllocateMemory; atBindBufferMemory bufferA; atBindBufferMemory bufferB;
   atBindBufferMemory bufferResult; atAllocateDescriptorSets;
   atCreateCommandPool; atAllocateCommandBuffers; atEndCommandBuffer;
   atMapMemoryWrite].

(** No tested call fails, a memory type is found, the second map works. *)
Definition succeeds (drv : Driver) : Prop :=
  Forall (fun s => result drv s = VK_SUCCESS) checkedSites /\
  0 <= memoryTypeIndexOf drv /\
  result drv atMapMemoryRead = VK_SUCCESS.

(** ** Runs either complete or stop early on a prefix *)

(** [s] ran to the end: it made exactly the calls [full], left memory [m]
    and ended with [r]. *)
Definition completes {A} (s : Step A) (full : list Call) (m : Memory)
    (r : Outcome + A) : Prop :=
  s = mkStep full m r.

(** [s] stopped before the end: its calls are a prefix of [full], it ended
    the program with something other than [return 0], and [blame] holds
    (the condition the failing test saw). *)
Definition stops {A} (s : Step A) (full : list Call) (blame : Prop) : Prop :=
  calls s `prefix_of` full /\ (exists o, next s = inl o /\ o <> Return 0) /\
  blame.

Definition cases {A} (s : Step A) (full : list Call) (m : Memory)
    (r : Outcome + A) (blame : Prop) : Prop :=
  (~ blame /\ completes s full m r) \/ stops s full blame.

(** One of the tested calls at [sites] failed. *)
Definition failed (drv : Driver) (sites : list Site) : Prop :=
  Exists (fun s => result drv s <> VK_SUCCESS) sites.

(** ** Concrete device lists and drivers for the selection claims *)

(** Three devices; only the third has a compute-capable family, at index 2
    (families: graphics, transfer, compute). *)
Definition three_devices : list PhysicalDevice :=
  [ {| handle := 11; queueFamilyProperties := [queueFamily 1] |};
    {| handle := 22; queueFamilyProperties := [queueFamily 1; queueFamily 4] |};
    {| handle := 33; queueFamilyProperties :=
                       [queueFamily 1; queueFamily 4; queueFamily 2] |} ].

Definition VK_ERROR_INITIALIZATION_FAILED : VkResult := -3.

(** One device whose only queue family is graphics-only; the driver rejects
    vkCreateDevice on the null handle, everything else succeeds. *)
Definition graphics_only_driver : Driver :=
  {| result := fun s =>
       match s with
       | atCreateDevice => VK_ERROR_INITIALIZATION_FAILED
       | _ => VK_SUCCESS
       end;
     physicalDevices :=
       [ {| handle := 4096; queueFamilyProperties := [queueFamily 1] |} ];
     getBufferMemoryRequirements := fun _ =>
       {| size := 4096; alignment := 16; memoryTypeBits := 3 |};
     getPhysicalDeviceMemoryProperties := fun _ => memoryTypeTable [1; 6];
     initialMemory := fun _ => 7 |}.

(** C3 as stated: with no capable device the program reports the failure
    and never goes on to create a logical device from the null handle. *)
Definition reports_no_capable_device (drv : Driver) : Prop :=
  Forall (incapable VK_QUEUE_COMPUTE_BIT) (physicalDevices drv) ->
  forall q, ~ In (vkCreateDevice VK_NULL_HANDLE q) (trace drv).

(** Memory type 0 is device-local, type 1 is host-visible, coherent and
    cached: a strict superset of the flags [main] asks for.  Everything else
    as in [nominal_driver]. *)
Definition superset_only_driver : Driver :=
  {| result := fun _ => VK_SUCCESS;
     physicalDevices :=
       [ {| handle := 4096; queueFamilyProperties := [queueFamily 7] |} ];
     getBufferMemoryRequirements := fun _ =>
       {| size := 4096; alignment := 16; memoryTypeBits := 3 |};
     getPhysicalDeviceMemoryProperties := fun _ => memoryTypeTable [1; 14];
     initialMemory := fun _ => 7 |}.

(** The tested sites before the memory type is looked up. *)
Definition sitesBeforeMemoryType : list Site :=
  [atCreateInstance; atEnumerateCount; atEnumerateDevices; atCreateDevice;
   atCreateDescriptorSetLayout; atCreateComputePipelines;
   atCreateBuffer bufferA; atCreateBuffer bufferB;
   atCreateBuffer bufferResult].

Definition is_query (c : Call) : Prop :=
  match c with
  | vkGetPhysicalDeviceQueueFamilyProperties _ => True
  | _ => False
  end.

(** ** Memory layout *)

(** Lines 318-334 for any number of resources: each resource is bound at the
    running [memoryOffset], which then grows by the requirement's [size]. *)
Fixpoint planOffsets (memoryOffset : Z)
    (requirements : list VkMemoryRequirements) : list Z :=
  match requirements with
  | [] => []
  | r :: rest => memoryOffset :: planOffsets (uint64 (memoryOffset + size r)) rest
  end.

(** Lines 277-287 for any number of resources: [requiredMemorySize]. *)
Definition planSize (requirements : list VkMemoryRequirements) : Z :=
  fold_left (fun requiredMemorySize r => uint64 (requiredMemorySize + size r))
            requirements 0.

(** The spec's MemoryRegion. *)
Record MemoryRegion := {
  offset : Z;
  regionSize : Z;
  regionAlignment : Z
}.

Definition region (o : Z) (r : VkMemoryRequirements) : MemoryRegion :=
  {| offset := o; regionSize := size r; regionAlignment := alignment r |}.

(** The layout the code computes: the regions and the allocation size. *)
Definition planAllocation (requirements : list VkMemoryRequirements)
    : list MemoryRegion * Z :=
  (zip_with region (planOffsets 0 requirements) requirements,
   planSize requirements).

(** The three requirement structs [main] fills; each is the answer to a
    query that names [bufferA] (lines 279, 282, 285). *)
Definition requirementsUsed (drv : Driver) : list VkMemoryRequirements :=
  [getBufferMemoryRequirements drv bufferA;
   getBufferMemoryRequirements drv bufferA;
   getBufferMemoryRequirements drv bufferA].

Fixpoint sumSizes (requirements : list VkMemoryRequirements) : Z :=
  match requirements with
  | [] => 0
  | r :: rest => size r + sumSizes rest
  end.

(** The layout as the spec words it: [alignedSize] rounds the required size
    up to the required alignment, and offsets advance by it. *)
Definition alignedSize (r : VkMemoryRequirements) : Z :=
  (size r + alignment r - 1) / alignment r * alignment r.

Fixpoint spec_planOffsets (offset : Z)
    (requirements : list VkMemoryRequirements) : list Z :=
  match requirements with
  | [] => []
  | r :: rest => offset :: spec_planOffsets (offset + alignedSize r) rest
  end.

Fixpoint spec_finalOffset (offset : Z)
    (requirements : list VkMemoryRequirements) : Z :=
  match requirements with
  | [] => offset
  | r :: rest => spec_finalOffset (offset + alignedSize r) rest
  end.

(** Regions [i < j] do not overlap. *)
Definition non_overlapping (regions : list MemoryRegion) : Prop :=
  forall i j g g', (i < j)%nat -> regions !! i = Some g ->
    regions !! j = Some g' -> offset g + regionSize g <= offset g'.

Definition aligned (g : MemoryRegion) : Prop :=
  (regionAlignment g | offset g).

(** C2 as stated, for the layout the code computes from [requirements]. *)
Definition layout_as_specified (requirements : list VkMemoryRequirements)
    : Prop :=
  let '(regions, total) := planAllocation requirements in
  map offset regions = spec_planOffsets 0 requirements /\
  non_overlapping regions /\
  Forall aligned regions /\
  total = spec_finalOffset 0 requirements.

(** Buffers need 4100 bytes aligned to 16; otherwise [nominal_driver]. *)
Definition unaligned_driver : Driver :=
  {| result := fun _ => VK_SUCCESS;
     physicalDevices :=
       [ {| handle := 4096; queueFamilyProperties := [queueFamily 7] |} ];
     getBufferMemoryRequirements := fun _ =>
       {| size := 4100; alignment := 16; memoryTypeBits := 3 |};
     getPhysicalDeviceMemoryProperties := fun _ => memoryTypeTable [1; 6];
     initialMemory := fun _ => 7 |}.

(** Projections of a trace. *)
Definition queriedBuffers (tr : list Call) : list Buffer :=
  flat_map (fun c => match c with
                     | vkGetBufferMemoryRequirements b => [b]
                     | _ => []
                     end) tr.

Definition allocationSizes (tr : list Call) : list Z :=
  flat_map (fun c => match c with
                     | vkAllocateMemory s _ => [s]
                     | _ => []
                     end) tr.

Definition bindCalls (tr : list Call) : list (Buffer * Z) :=
  flat_map (fun c => match c with
                     | vkBindBufferMemory b o => [(b, o)]
                     | _ => []
                     end) tr.

(** The driver [drv] with other memory requirements for bufferB and
    bufferResult. *)
Definition with_requirements (drv : Driver)
    (reqB reqResult : VkMemoryRequirements) : Driver :=
  {| result := result drv;
     physicalDevices := physicalDevices drv;
     getBufferMemoryRequirements := fun b =>
       match b with
       | bufferA => getBufferMemoryRequirements drv bufferA
       | bufferB => reqB
       | bufferResult => reqResult
       end;
     getPhysicalDeviceMemoryProperties := getPhysicalDeviceMemoryProperties drv;
     initialMemory := initialMemory drv |}.

(** What C10 says of a single call. *)
Definition layout_call_from_bufferA (drv : Driver) (c : Call) : Prop :=
  let a := size (getBufferMemoryRequirements drv bufferA) in
  match c with
  | vkGetBufferMemoryRequirements b => b = bufferA
  | vkAllocateMemory s _ => s = uint64 (3 * a)
  | vkBindBufferMemory bufferA o => o = 0
  | vkBindBufferMemory bufferB o => o = a
  | vkBindBufferMemory bufferResult o => o = uint64 (2 * a)
  | _ => True
  end.

Definition is_report (c : Call) : Prop :=
  match c with
  | fprintf_stderr _ _ _ => True
  | _ => False
  end.

(** ** Host mapping against device execution *)

(** The calls that open or close a mapping window or bracket execution. *)
Definition syncCalls (tr : list Call) : list Call :=
  flat_map (fun c => match c with
                     | vkMapMemory | vkUnmapMemory
                     | vkQueueSubmit | vkQueueWaitIdle => [c]
                     | _ => []
                     end) tr.

(** Monitor: [true] when the block is never mapped while a submitted batch
    is in flight.  A map opens a window, an unmap closes it; a submission
    puts the batch in flight until the queue has been waited idle. *)
Fixpoint mapping_exclusive (mapped in_flight : bool) (tr : list Call) : bool :=
  match tr with
  | [] => true
  | vkMapMemory :: rest => negb in_flight && mapping_exclusive true in_flight rest
  | vkUnmapMemory :: rest => mapping_exclusive false in_flight rest
  | vkQueueSubmit :: rest => negb mapped && mapping_exclusive mapped true rest
  | vkQueueWaitIdle :: rest => mapping_exclusive mapped false rest
  | _ :: rest => mapping_exclusive mapped in_flight rest
  end.

(** ** Creation and destruction order *)

#[global] Instance Buffer_eq_dec : EqDecision Buffer.
Proof. solve_decision. Defined.

#[global] Instance Object_eq_dec : EqDecision Object.
Proof. solve_decision. Defined.

Definition creates (c : Call) : list Object :=
  match c with
  | vkCreateInstance => [o_instance]
  | vkCreateDevice _ _ => [o_device]
  | vkCreateDescriptorSetLayout _ => [o_setLayout]
  | vkCreatePipelineLayout => [o_pipelineLayout]
  | vkCreateShaderModule => [o_shaderModule]
  | vkCreateComputePipelines => [o_pipeline]
  | vkCreateBuffer b _ => [o_buffer b]
  | vkAllocateMemory _ _ => [o_memory]
  | vkCreateDescriptorPool _ _ => [o_descriptorPool]
  | vkAllocateDescriptorSets => [o_descriptorSet]
  | vkCreateCommandPool _ => [o_commandPool]
  | vkAllocateCommandBuffers => [o_commandBuffer]
  | _ => []
  end.

Definition destroys (c : Call) : list Object :=
  match c with
  | vkDestroyShaderModule => [o_shaderModule]
  | vkDestroyCommandPool => [o_commandPool]
  | vkFreeMemory => [o_memory]
  | vkDestroyBuffer b => [o_buffer b]
  | vkDestroyDescriptorPool => [o_descriptorPool]
  | vkDestroyPipeline => [o_pipeline]
  | vkDestroyPipelineLayout => [o_pipelineLayout]
  | vkDestroyDescriptorSetLayout => [o_setLayout]
  | vkDestroyDevice => [o_device]
  | vkDestroyInstance => [o_instance]
  | _ => []
  end.

(** Descriptor sets and command buffers go with the pool they came from. *)
Definition owner (o : Object) : Object :=
  match o with
  | o_descriptorSet => o_descriptorPool
  | o_commandBuffer => o_commandPool
  | _ => o
  end.

Definition creationOrder (tr : list Call) : list Object := flat_map creates tr.
Definition destructionOrder (tr : list Call) : list Object :=
  flat_map destroys tr.

Definition is_teardown_call (c : Call) : bool :=
  match c with
  | printf_success => true
  | _ => match destroys c with [] => false | _ => true end
  end.

(** The teardown of a run: the longest suffix of its trace made only of
    destroy/free calls (and the final printf). *)
Fixpoint teardownCalls (tr : list Call) : list Call :=
  match tr with
  | [] => []
  | c :: rest =>
      if forallb is_teardown_call (c :: rest) then c :: rest
      else teardownCalls rest
  end.

(** The objects released by the teardown, in order. *)
Definition released (tr : list Call) : list Object :=
  flat_map destroys (teardownCalls tr).

(** Position of the first occurrence. *)
Fixpoint position (x : Object) (l : list Object) : option nat :=
  match l with
  | [] => None
  | y :: rest => if decide (y = x) then Some O else S <$> position x rest
  end.

(** [x] is released, and before [y] if [y] is released at all. *)
Definition released_before (x y : Object) (l : list Object) : Prop :=
  exists i, position x l = Some i /\
            forall j, position y l = Some j -> (i < j)%nat.

Definition releases_all (tr : list Call) : Prop :=
  forall o, In o (creationOrder tr) -> In (owner o) (destructionOrder tr).

(** Restricted to the objects in [keep], the teardown releases in the
    reverse of the creation order. *)
Definition reverse_creation_order (keep : Object -> bool) (tr : list Call)
    : Prop :=
  List.filter keep (released tr)
  = rev (List.filter
           (fun o => keep o && bool_decide (o ∈ released tr))
           (creationOrder tr)).

(** C6 as stated. *)
Definition teardown_as_specified (tr : list Call) : Prop :=
  releases_all tr /\
  reverse_creation_order (fun _ => true) tr /\
  forall b, released_before (o_buffer b) o_memory (released tr).

Definition VK_ERROR_OUT_OF_DEVICE_MEMORY : VkResult := -2.

(** vkAllocateMemory fails; otherwise [nominal_driver]. *)
Definition out_of_memory_driver : Driver :=
  {| result := fun s =>
       match s with
       | atAllocateMemory => VK_ERROR_OUT_OF_DEVICE_MEMORY
       | _ => VK_SUCCESS
       end;
     physicalDevices := physicalDevices nominal_driver;
     getBufferMemoryRequirements := getBufferMemoryRequirements nominal_driver;
     getPhysicalDeviceMemoryProperties :=
       getPhysicalDeviceMemoryProperties nominal_driver;
     initialMemory := initialMemory nominal_driver |}.

(** ** Descriptor slots: declared, written, used *)






(** ** Descriptor pool sizing *)

(** The descriptors of kind [ty] a set with layout [bindings] needs, and the
    descriptors of that kind a pool holds. *)
Definition descriptorsNeeded (ty : Z)
    (bindings : list VkDescriptorSetLayoutBinding) : Z :=
  fold_right Z.add 0
    (map descriptorCount
       (List.filter (fun b => descriptorType b =? ty) bindings)).

Definition poolCapacity (ty : Z) (pPoolSizes : list VkDescriptorPoolSize) : Z :=
  fold_right Z.add 0
    (map poolDescriptorCount
       (List.filter (fun s => type s =? ty) pPoolSizes)).


(** Modelled from the spec: the driver's descriptor pool is not code of the
    repository; the spec has [allocateSet] fail with
    DescriptorPoolExhaustedError when the pool is sized smaller than the
    declared slots and succeed when it is sized exactly.  Allocating one set
    from a fresh pool succeeds when the pool has room for a set and holds, for
    every declared slot, enough descriptors of its kind. *)
Definition allocateSet (maxSets : Z) (pPoolSizes : list VkDescriptorPoolSize)
    (bindings : list VkDescriptorSetLayoutBinding) : bool :=
  (1 <=? maxSets)
  && forallb (fun b => descriptorsNeeded (descriptorType b) bindings
                       <=? poolCapacity (descriptorType b) pPoolSizes)
             bindings.

Module Triangle.

(** triangle.cpp:348-358: two uniform buffers for the vertex stage. *)
Definition layoutBindings : list VkDescriptorSetLayoutBinding :=
  let layoutBinding :=
    {| binding := 0; descriptorType := VK_DESCRIPTOR_TYPE_UNIFORM_BUFFER;
       descriptorCount := 1; stageFlags := VK_SHADER_STAGE_VERTEX_BIT |} in
  let v := [layoutBinding] in
  let layoutBinding := set_binding 1 layoutBinding in
  v ++ [layoutBinding].

(** triangle.cpp:494-496: the count is the literal 2. *)
Definition poolSize : VkDescriptorPoolSize :=
  {| type := VK_DESCRIPTOR_TYPE_UNIFORM_BUFFER; poolDescriptorCount := 2 |}.

(** triangle.cpp:501. *)
Definition maxSets : Z := 1.

(** The Vulkan objects of triangle.cpp's [main], named after its locals. *)
Inductive Object :=
| t_instance | t_surface | t_device | t_vertexShaderModule
| t_fragmentShaderModule | t_setLayout | t_pipelineLayout | t_renderPass
| t_pipeline | t_commandPool | t_commandBuffer | t_descriptorPool
| t_descriptorSet | t_vertexPositions | t_vertexColors | t_bufferMemory
| t_swapchain | t_swapchainView | t_depthStencil | t_depthStencilView
| t_imageMemory | t_framebuffer.

#[global] Instance Object_eq_dec : EqDecision Object.
Proof. solve_decision. Defined.

(** The objects in the order the create/allocate calls appear
    (triangle.cpp:153-690). *)
Definition created : list Object :=
  [t_instance; t_surface; t_device; t_vertexShaderModule;
   t_fragmentShaderModule; t_setLayout; t_pipelineLayout; t_renderPass;
   t_pipeline; t_commandPool; t_commandBuffer; t_descriptorPool;
   t_descriptorSet; t_vertexPositions; t_vertexColors; t_bufferMemory;
   t_swapchain; t_swapchainView; t_depthStencil; t_depthStencilView;
   t_imageMemory; t_framebuffer].

(** The objects in the order the teardown releases them
    (triangle.cpp:731-746). *)
Definition torn_down : list Object :=
  [t_commandBuffer; t_commandPool; t_descriptorPool; t_renderPass;
   t_pipelineLayout; t_setLayout; t_pipeline; t_fragmentShaderModule;
   t_vertexShaderModule; t_device; t_instance].

End Triangle.

Module Example.

(** example.cpp:160-181: the array [layoutBindings[3]]. *)
Definition layoutBindings : list VkDescriptorSetLayoutBinding :=
  [ {| binding := 0; descriptorType := VK_DESCRIPTOR_TYPE_STORAGE_BUFFER;
       descriptorCount := 1; stageFlags := VK_SHADER_STAGE_COMPUTE_BIT |};
    {| binding := 1; descriptorType := VK_DESCRIPTOR_TYPE_STORAGE_BUFFER;
       descriptorCount := 1; stageFlags := VK_SHADER_STAGE_COMPUTE_BIT |};
    {| binding := 2; descriptorType := VK_DESCRIPTOR_TYPE_STORAGE_BUFFER;
       descriptorCount := 1; stageFlags := VK_SHADER_STAGE_COMPUTE_BIT |} ].

(** example.cpp:189-190: [bindingCount = 2; pBindings = layoutBindings]. *)
Definition bindingCount : Z := 2.

(** The bindings vkCreateDescriptorSetLayout reads. *)
Definition layoutCreated : list VkDescriptorSetLayoutBinding :=
  take (Z.to_nat bindingCount) layoutBindings.

End Example.



(** ** loadShaderCode (vector_add.cpp:18-28, triangle.cpp:70-80,
       example.cpp:22-33) *)

(** What [fopen(filename, "rb")] finds: the bytes of the file, or nothing. *)
Definition FileSystem := String.string -> option (list Byte.byte).

(** [fread(buf, 1, count, fp)] on a stream with the bytes [fp] left: the
    bytes stored into [buf] and the bytes left afterwards. *)
Definition fread (count : nat) (fp : list Byte.byte)
    : list Byte.byte * list Byte.byte :=
  (take count fp, drop count fp).

Definition inspect {A} (a : A) : {b : A | a = b} := exist _ a eq_refl.

(** The [while (size_t len = fread(buf, 1, sizeof(buf), fp))] loop with its
    body [shaderCode.insert(shaderCode.end(), buf, buf + len)]. *)
Equations? readLoop (fp shaderCode : list Byte.byte) : list Byte.byte
    by wf (length fp) lt :=
  readLoop fp shaderCode with inspect (fread 1024 fp) := {
    | exist _ (buf, fp') Hread with inspect (length buf) := {
        | exist _ O _ := shaderCode
        | exist _ (S _) Hlen := readLoop fp' (shaderCode ++ buf) } }.
Proof.
  unfold fread in Hread. injection Hread as Hbuf Hfp. subst buf fp'.
  destruct fp as [|c fp]; [discriminate Hlen|].
  rewrite length_drop. cbn [length]. lia.
Qed.

Definition loadShaderCode (fs : FileSystem) (filename : String.string)
    : list Byte.byte :=
  match fs filename with
  | Some fp => readLoop fp []
  | None => []
  end.

(** ** The exit code of [main] *)

(** The result of the first of [sites], in program order, that failed. *)
Fixpoint firstFailure (drv : Driver) (sites : list Site) : option VkResult :=
  match sites with
  | [] => None
  | s :: rest =>
      if result drv s =? 0 then firstFailure drv rest
      else Some (result drv s)
  end.

(** The tested sites after the memory type is looked up, in program order. *)
Definition sitesAfterMemoryType : list Site :=
  [atAllocateMemory; atBindBufferMemory bufferA; atBindBufferMemory bufferB;
   atBindBufferMemory bufferResult; atAllocateDescriptorSets;
   atCreateCommandPool; atAllocateCommandBuffers; atEndCommandBuffer;
   atMapMemoryWrite].

(** How a program ends when the tested calls at [sites] come first and it
    would otherwise end with [r]. *)
Definition after_sites {A} (drv : Driver) (sites : list Site)
    (r : Outcome + A) : Outcome + A :=
  match firstFailure drv sites with
  | Some e => inl (Return e)
  | None => r
  end.

(** How [main] ends, read off the driver's answers. *)
Definition exitOf (drv : Driver) : Outcome :=
  match firstFailure drv sitesBeforeMemoryType with
  | Some e => Return e
  | None =>
      if memoryTypeIndexOf drv <? 0 then Return (-43)
      else match firstFailure drv sitesAfterMemoryType with
           | Some e => Return e
           | None =>
               if result drv atMapMemoryRead =? 0 then Return 0 else Crash
           end
  end.

Definition VK_INCOMPLETE : VkResult := 5.

(** The second vkEnumeratePhysicalDevices call reports VK_INCOMPLETE (a
    status code, not an error); otherwise [nominal_driver]. *)
Definition incomplete_enumeration_driver : Driver :=
  {| result := fun s =>
       match s with
       | atEnumerateDevices => VK_INCOMPLETE
       | _ => VK_SUCCESS
       end;
     physicalDevices := physicalDevices nominal_driver;
     getBufferMemoryRequirements := getBufferMemoryRequirements nominal_driver;
     getPhysicalDeviceMemoryProperties :=
       getPhysicalDeviceMemoryProperties nominal_driver;
     initialMemory := initialMemory nominal_driver |}.

(** ** A rejected submission *)

Definition VK_ERROR_DEVICE_LOST : VkResult := -4.

(** vkQueueSubmit is rejected; otherwise [nominal_driver]. *)
Definition rejected_submission_driver : Driver :=
  {| result := fun s =>
       match s with
       | atQueueSubmit => VK_ERROR_DEVICE_LOST
       | _ => VK_SUCCESS
       end;
     physicalDevices := physicalDevices nominal_driver;
     getBufferMemoryRequirements := getBufferMemoryRequirements nominal_driver;
     getPhysicalDeviceMemoryProperties :=
       getPhysicalDeviceMemoryProperties nominal_driver;
     initialMemory := initialMemory nominal_driver |}.

(** ** example.cpp *)

Module ExampleCpp.

(** example.cpp:244-254. *)
Definition teardown : Prog unit :=
  exec call vkDestroyPipeline;
  exec call vkDestroyPipelineLayout;
  exec call vkDestroyDescriptorSetLayout;
  exec call vkDestroyDevice;
  exec call vkDestroyInstance;
  exit 0.

(** example.cpp:35-255.  Lines 36-157 are, statement for statement, lines
    43-165 of vector_add.cpp ([createContext]); lines 160-237 are lines
    166-245 ([createPipeline]) with the layout reading the first
    [bindingCount = 2] entries of the array. *)
Definition main (drv : Driver) : Prog unit :=
  exec createContext drv;
  exec createPipeline drv Example.layoutCreated;
  teardown.

Definition run (drv : Driver) : Step unit := main drv (initialMemory drv).
Definition trace (drv : Driver) : list Call := calls (run drv).
Definition outcome (drv : Driver) : option Outcome :=
  match next (run drv) with inl o => Some o | inr _ => None end.

(** The sites whose result example.cpp tests. *)
Definition testedSites : list Site :=
  [atCreateInstance; atEnumerateCount; atEnumerateDevices; atCreateDevice;
   atCreateDescriptorSetLayout; atCreateComputePipelines].

Definition exitOf (drv : Driver) : Outcome :=
  match firstFailure drv testedSites with
  | Some e => Return e
  | None => Return 0
  end.

(** The calls of a run in which no test fails. *)
Definition completeTrace (drv : Driver) : list Call :=
  [vkCreateInstance; vkEnumeratePhysicalDevices; vkEnumeratePhysicalDevices]
  ++ selectionCalls drv
  ++ [vkCreateDevice (fst (selected drv)) (snd (selected drv));
      vkGetDeviceQueue (snd (selected drv));
      vkCreateDescriptorSetLayout Example.layoutCreated;
      vkCreatePipelineLayout; vkCreateShaderModule; vkCreateComputePipelines;
      vkDestroyShaderModule;
      vkDestroyPipeline; vkDestroyPipelineLayout;
      vkDestroyDescriptorSetLayout; vkDestroyDevice; vkDestroyInstance].

End ExampleCpp.

(** vkCreateComputePipelines fails; otherwise [nominal_driver]. *)
Definition no_pipeline_driver : Driver :=
  {| result := fun s =>
       match s with
       | atCreateComputePipelines => VK_ERROR_INITIALIZATION_FAILED
       | _ => VK_SUCCESS
       end;
     physicalDevices := physicalDevices nominal_driver;
     getBufferMemoryRequirements := getBufferMemoryRequirements nominal_driver;
     getPhysicalDeviceMemoryProperties :=
       getPhysicalDeviceMemoryProperties nominal_driver;
     initialMemory := initialMemory nominal_driver |}.

(** ** The run of vector_add.cpp as a straight-line script *)

(** One step of a script: a call that is made, or a test the run has to pass
    to go on. *)
Inductive Item :=
| does (c : Call)
| needs (ok : bool).

(** The calls made: those in front of the first test that does not pass. *)
Fixpoint cut (script : list Item) : list Call :=
  match script with
  | [] => []
  | does c :: rest => c :: cut rest
  | needs ok :: rest => if ok then cut rest else []
  end.

Definition passes (script : list Item) : bool :=
  forallb (fun i => match i with does _ => true | needs ok => ok end) script.

(** All the calls of a script, tests left out. *)
Definition allCalls (script : list Item) : list Call :=
  flat_map (fun i => match i with does c => [c] | needs _ => [] end) script.

(** [error = vkX(...); if (error) { return error; }] at site [s]. *)
Definition tested (drv : Driver) (c : Call) (s : Site) : list Item :=
  [does c; needs (result drv s =? 0)].

(** [main], statement by statement: every call in program order, and after
    each call whose result is read the test on it.  The test after
    vkGetPhysicalDeviceMemoryProperties is the one on [memoryTypeIndex]
    (line 295); the one after the second vkMapMemory stands for the
    dereference of [data] in the verification loop. *)
Definition script (drv : Driver) : list Item :=
  tested drv vkCreateInstance atCreateInstance
  ++ tested drv vkEnumeratePhysicalDevices atEnumerateCount
  ++ tested drv vkEnumeratePhysicalDevices atEnumerateDevices
  ++ map does (selectionCalls drv)
  ++ tested drv (vkCreateDevice (fst (selected drv)) (snd (selected drv)))
       atCreateDevice
  ++ [does (vkGetDeviceQueue (snd (selected drv)))]
  ++ tested drv (vkCreateDescriptorSetLayout layoutBindings)
       atCreateDescriptorSetLayout
  ++ [does vkCreatePipelineLayout; does vkCreateShaderModule]
  ++ tested drv vkCreateComputePipelines atCreateComputePipelines
  ++ [does vkDestroyShaderModule]
  ++ tested drv (vkCreateBuffer bufferA (uint64 (4 * elements)))
       (atCreateBuffer bufferA)
  ++ tested drv (vkCreateBuffer bufferB (uint64 (4 * elements)))
       (atCreateBuffer bufferB)
  ++ tested drv (vkCreateBuffer bufferResult (uint64 (4 * elements)))
       (atCreateBuffer bufferResult)
  ++ [does (vkGetBufferMemoryRequirements bufferA);
      does (vkGetBufferMemoryRequirements bufferA);
      does (vkGetBufferMemoryRequirements bufferA);
      does (vkGetPhysicalDeviceMemoryProperties (fst (selected drv)));
      needs (0 <=? memoryTypeIndexOf drv)]
  ++ tested drv (vkAllocateMemory (requiredMemorySizeOf drv)
                   (memoryTypeIndexOf drv)) atAllocateMemory
  ++ tested drv (vkBindBufferMemory bufferA (fst (fst (bindOffsets drv))))
       (atBindBufferMemory bufferA)
  ++ tested drv (vkBindBufferMemory bufferB (snd (fst (bindOffsets drv))))
       (atBindBufferMemory bufferB)
  ++ tested drv (vkBindBufferMemory bufferResult (snd (bindOffsets drv)))
       (atBindBufferMemory bufferResult)
  ++ [does (vkCreateDescriptorPool 1 [poolSize layoutBindings])]
  ++ tested drv vkAllocateDescriptorSets atAllocateDescriptorSets
  ++ [does (vkUpdateDescriptorSets descriptorSetWrites)]
  ++ tested drv (vkCreateCommandPool (snd (selected drv))) atCreateCommandPool
  ++ tested drv vkAllocateCommandBuffers atAllocateCommandBuffers
  ++ [does vkBeginCommandBuffer; does vkCmdBindPipeline;
      does vkCmdBindDescriptorSets; does (vkCmdDispatch elements 1 1)]
  ++ tested drv vkEndCommandBuffer atEndCommandBuffer
  ++ tested drv vkMapMemory atMapMemoryWrite
  ++ [does vkUnmapMemory; does vkQueueSubmit; does vkQueueWaitIdle;
      does vkMapMemory; needs (result drv atMapMemoryRead =? 0)]
  ++ map does (mismatchReports drv)
  ++ map does
       [vkUnmapMemory;
        vkDestroyCommandPool; vkFreeMemory; vkDestroyBuffer bufferResult;
        vkDestroyBuffer bufferB; vkDestroyBuffer bufferA;
        vkDestroyDescriptorPool; vkDestroyPipeline; vkDestroyPipelineLayout;
        vkDestroyDescriptorSetLayout; vkDestroyDevice; vkDestroyInstance;
        printf_success].

(** [s] made the calls of [sc] up to its first failing test; if every test
    passed it left memory [m'] and ended with [r], otherwise it ended the
    program with something other than [return 0]. *)
Definition scripted {A} (s : Step A) (sc : list Item) (m' : Memory)
    (r : Outcome + A) : Prop :=
  calls s = cut sc /\
  if passes sc then mem s = m' /\ next s = r
  else exists o, next s = inl o /\ o <> Return 0.

(** ** What the verification loop prints *)

(** The lines a trace prints to stderr. *)
Definition stderrLines (tr : list Call) : list Call :=
  flat_map (fun c => match c with
                     | fprintf_stderr _ _ _ => [c]
                     | _ => []
                     end) tr.

(** The line for [index], if the result word differs from the 32-bit sum of
    the two input words. *)
Definition mismatchLine (m : Memory) (aData bData resultData index : Z)
    : list Call :=
  let expected := int32 (m (aData + index) + m (bData + index)) in
  if m (resultData + index) =? expected then []
  else [fprintf_stderr index (m (resultData + index)) expected].

(** One line per mismatching index, the indices 0, 1, ..., 1023 in this
    order, with the three ranges where the second mapping window has them
    (lines 510-515). *)
Definition mismatchLines (m : Memory) : list Call :=
  flat_map (mismatchLine m 0 elements (2 * elements)) (seqZ 0 elements).


(** * Properties *)

(** ** Machine integers *)

Lemma uint32_small x : 0 <= x < 2 ^ 32 -> uint32 x = x.
Proof. intros H. unfold uint32. apply Z.mod_small. exact H. Qed.

Lemma uint64_small x : 0 <= x < 2 ^ 64 -> uint64 x = x.
Proof. intros H. unfold uint64. apply Z.mod_small. exact H. Qed.

Lemma uint64_range x : 0 <= uint64 x < 2 ^ 64.
Proof. unfold uint64. apply Z.mod_pos_bound. lia. Qed.

Lemma int32_small x : - 2 ^ 31 <= x < 2 ^ 31 -> int32 x = x.
Proof. intros H. unfold int32. rewrite Z.mod_small; lia. Qed.


(** ** Composition of runs *)

Section Cases.
Context {A B : Type}.

Lemma bind_cases (p : Prog A) (f : A -> Prog B) m full1 m1 v full2 m2 r
    (b1 b2 : Prop) :
  cases (p m) full1 m1 (inr v) b1 ->
  cases (f v m1) full2 m2 r b2 ->
  cases (bind p f m) (full1 ++ full2) m2 r (b1 \/ b2).
Proof.
  intros [[Hn1 Hp] | (Hpre & (o & Ho & Hne) & Hb)] Hf.
  - unfold completes in Hp. unfold bind. rewrite Hp. cbn [next calls mem].
    destruct Hf as [[Hn2 Hf] | (Hpre & (o & Ho & Hne) & Hb)].
    + left. split; [tauto|]. unfold completes in *. rewrite Hf. reflexivity.
    + right. split; [|split]; cbn [calls next].
      * apply prefix_app. exact Hpre.
      * exists o. split; [exact Ho | exact Hne].
      * right. exact Hb.
  - right. unfold bind. rewrite Ho. split; [|split]; cbn [calls next].
    + apply prefix_app_r. exact Hpre.
    + exists o. split; [reflexivity | exact Hne].
    + left. exact Hb.
Qed.

Lemma ret_cases (v : A) m : cases (ret v m) [] m (inr v) False.
Proof. left. split; [tauto | reflexivity]. Qed.

Lemma exit0_cases m : cases (@exit A 0 m) [] m (inl (Return 0)) False.
Proof. left. split; [tauto | reflexivity]. Qed.

Lemma guard_cases (idx : Z) (k : Prog A) m full m' r (b : Prop) :
  (0 <= idx -> cases (k m) full m' r b) ->
  cases ((if 0 >? idx then exit (bitnot 42) else k) m) full m' r
        (idx < 0 \/ b).
Proof.
  intros Hk. destruct (0 >? idx) eqn:E.
  - right. split; [|split]; cbn [exit calls next].
    + apply prefix_nil.
    + exists (Return (bitnot 42)). split; [reflexivity|].
      vm_compute. discriminate.
    + left. lia.
  - assert (Hi : 0 <= idx) by lia.
    destruct (Hk Hi) as [[Hn H] | (H1 & H2 & H3)].
    + left. split; [|exact H]. intros [Hlt | Hb]; [lia | tauto].
    + right. split; [exact H1 | split; [exact H2 | right; exact H3]].
Qed.

Lemma crash_guard_cases (e : Z) (k : Prog A) m full m' r (b : Prop) :
  (e = 0 -> cases (k m) full m' r b) ->
  cases ((if e =? 0 then k else crash) m) full m' r (e <> 0 \/ b).
Proof.
  intros Hk. destruct (Z.eqb_spec e 0) as [E|E].
  - destruct (Hk E) as [[Hn H] | (H1 & H2 & H3)].
    + left. split; [tauto | exact H].
    + right. split; [exact H1 | split; [exact H2 | right; exact H3]].
  - right. split; [|split]; cbn [crash calls next].
    + apply prefix_nil.
    + exists Crash. split; [reflexivity | discriminate].
    + left. exact E.
Qed.

Lemma cases_completes (s : Step A) full m r (b : Prop) :
  cases s full m r b -> ~ b -> s = mkStep full m r.
Proof. intros [[_ H] | (_ & _ & Hb)] Hn; [exact H | contradiction]. Qed.
End Cases.

Lemma call_cases c m : cases (call c m) [c] m (inr tt) False.
Proof. left. split; [tauto | reflexivity]. Qed.

Lemma modify_cases f m : cases (modify f m) [] (f m) (inr tt) False.
Proof. left. split; [tauto | reflexivity]. Qed.

Lemma emit_cases g m : cases (emit g m) (g m) m (inr tt) False.
Proof. left. split; [tauto | reflexivity]. Qed.

Lemma vk_cases drv c s m :
  cases (vk drv c s m) [c] m (inr tt) (result drv s <> VK_SUCCESS).
Proof.
  unfold vk, bind, fail_if. cbn [call next calls mem].
  destruct (Z.eqb_spec (result drv s) 0) as [E|E].
  - left. split; [unfold VK_SUCCESS; tauto | reflexivity].
  - right. split; [|split]; cbn [exit calls next].
    + reflexivity.
    + exists (Return (result drv s)). split; [reflexivity|]. congruence.
    + exact E.
Qed.

(** The blame may be restated by an equivalent condition. *)
Lemma cases_eq {A} (s : Step A) full full' m m' r (b b' : Prop) :
  cases s full m r b -> full = full' -> m = m' -> (b <-> b') ->
  cases s full' m' r b'.
Proof.
  intros [[Hn H] | (H1 & H2 & H3)] -> -> Hb.
  - left. split; [tauto | exact H].
  - right. split; [exact H1 | split; [exact H2 | tauto]].
Qed.

Lemma failed_app drv l1 l2 :
  failed drv (l1 ++ l2) <-> failed drv l1 \/ failed drv l2.
Proof. unfold failed. apply Exists_app. Qed.

(** Restates a nest of disjunctions of failed tests as [failed drv sites]. *)
Ltac blame :=
  unfold failed; rewrite ?Exists_cons, ?Exists_nil; unfold VK_SUCCESS; tauto.

(** ** The selection loop inside the monad *)

Lemma selectDeviceProg_step bit devs pd q m :
  selectDeviceProg bit devs pd q m =
  mkStep (calls (selectDeviceProg bit devs pd q m)) m
         (inr (selectDeviceLoop bit devs pd q)).
Proof.
  revert pd q. induction devs as [|d rest IH]; intros pd q; [reflexivity|].
  cbn [selectDeviceProg selectDeviceLoop].
  destruct (findQueueFamily bit (queueFamilyProperties d) 0) as [index|];
    unfold bind at 1 2; cbn [call next calls mem].
  - destruct (handle d =? VK_NULL_HANDLE).
    + rewrite (IH (handle d) index). reflexivity.
    + reflexivity.
  - destruct (pd =? VK_NULL_HANDLE).
    + rewrite (IH pd q). reflexivity.
    + reflexivity.
Qed.

Lemma selectDeviceProg_calls_mem bit devs pd q m m' :
  calls (selectDeviceProg bit devs pd q m) =
  calls (selectDeviceProg bit devs pd q m').
Proof.
  revert pd q. induction devs as [|d rest IH]; intros pd q; [reflexivity|].
  cbn [selectDeviceProg].
  destruct (findQueueFamily bit (queueFamilyProperties d) 0) as [index|];
    unfold bind; cbn [call next calls mem].
  - destruct (handle d =? VK_NULL_HANDLE); [|reflexivity].
    rewrite (IH (handle d) index). reflexivity.
  - destruct (pd =? VK_NULL_HANDLE); [|reflexivity].
    rewrite (IH pd q). reflexivity.
Qed.

Lemma selectDeviceProg_cases bit devs pd q m :
  cases (selectDeviceProg bit devs pd q m)
        (calls (selectDeviceProg bit devs pd q m)) m
        (inr (selectDeviceLoop bit devs pd q)) False.
Proof. left. split; [tauto | apply selectDeviceProg_step]. Qed.

(** ** Shape of every run *)

Ltac step_cases :=
  first
    [ apply vk_cases | apply call_cases | apply ret_cases | apply exit0_cases
    | apply modify_cases | apply emit_cases | apply selectDeviceProg_cases
    | eapply bind_cases ].

Ltac phase_cases :=
  eapply cases_eq; [repeat step_cases | reflexivity | reflexivity | blame].

Lemma createContext_cases drv m :
  cases (createContext drv m)
    ([vkCreateInstance; vkEnumeratePhysicalDevices; vkEnumeratePhysicalDevices]
     ++ calls (selectDeviceProg VK_QUEUE_COMPUTE_BIT (physicalDevices drv)
                 VK_NULL_HANDLE 0 m)
     ++ [vkCreateDevice (fst (selected drv)) (snd (selected drv));
         vkGetDeviceQueue (snd (selected drv))])
    m (inr (selected drv))
    (failed drv [atCreateInstance; atEnumerateCount; atEnumerateDevices;
                 atCreateDevice]).
Proof. unfold createContext. phase_cases. Qed.

Lemma createPipeline_cases drv lb m :
  cases (createPipeline drv lb m)
    [vkCreateDescriptorSetLayout lb; vkCreatePipelineLayout;
     vkCreateShaderModule; vkCreateComputePipelines; vkDestroyShaderModule]
    m (inr tt)
    (failed drv [atCreateDescriptorSetLayout; atCreateComputePipelines]).
Proof. unfold createPipeline. phase_cases. Qed.

Lemma createBuffers_cases drv m :
  cases (createBuffers drv m)
    [vkCreateBuffer bufferA (uint64 (4 * elements));
     vkCreateBuffer bufferB (uint64 (4 * elements));
     vkCreateBuffer bufferResult (uint64 (4 * elements))]
    m (inr tt)
    (failed drv [atCreateBuffer bufferA; atCreateBuffer bufferB;
                 atCreateBuffer bufferResult]).
Proof. unfold createBuffers. phase_cases. Qed.

Lemma allocateAndBind_cases drv m :
  cases (allocateAndBind drv (fst (selected drv)) m)
    [vkGetBufferMemoryRequirements bufferA;
     vkGetBufferMemoryRequirements bufferA;
     vkGetBufferMemoryRequirements bufferA;
     vkGetPhysicalDeviceMemoryProperties (fst (selected drv));
     vkAllocateMemory (requiredMemorySizeOf drv) (memoryTypeIndexOf drv);
     vkBindBufferMemory bufferA (fst (fst (bindOffsets drv)));
     vkBindBufferMemory bufferB (snd (fst (bindOffsets drv)));
     vkBindBufferMemory bufferResult (snd (bindOffsets drv))]
    m (inr (bindOffsets drv))
    (memoryTypeIndexOf drv < 0 \/
     failed drv [atAllocateMemory; atBindBufferMemory bufferA;
                 atBindBufferMemory bufferB; atBindBufferMemory bufferResult]).
Proof.
  unfold allocateAndBind.
  eapply cases_eq;
    [ do 4 (eapply bind_cases; [apply call_cases|]);
      apply guard_cases; intros _; repeat step_cases
    | reflexivity | reflexivity | ].
  blame.
Qed.

Lemma createDescriptorSet_cases drv lb m :
  cases (createDescriptorSet drv lb m)
    [vkCreateDescriptorPool 1 [poolSize lb]; vkAllocateDescriptorSets]
    m (inr tt) (failed drv [atAllocateDescriptorSets]).
Proof. unfold createDescriptorSet. phase_cases. Qed.

Lemma updateAndRecord_cases drv writes q m :
  cases (updateAndRecord drv writes q m)
    [vkUpdateDescriptorSets writes; vkCreateCommandPool q;
     vkAllocateCommandBuffers; vkBeginCommandBuffer; vkCmdBindPipeline;
     vkCmdBindDescriptorSets; vkCmdDispatch elements 1 1; vkEndCommandBuffer]
    m (inr tt)
    (failed drv [atCreateCommandPool; atAllocateCommandBuffers;
                 atEndCommandBuffer]).
Proof. unfold updateAndRecord. phase_cases. Qed.

(** The tested sites of lines 43-466, in program order. *)
Lemma setup_cases drv :
  cases (setup drv (initialMemory drv)) (setupCalls drv) (initialMemory drv)
    (inr (bindOffsets drv))
    (memoryTypeIndexOf drv < 0 \/
     failed drv
       [atCreateInstance; atEnumerateCount; atEnumerateDevices; atCreateDevice;
        atCreateDescriptorSetLayout; atCreateComputePipelines;
        atCreateBuffer bufferA; atCreateBuffer bufferB;
        atCreateBuffer bufferResult; atAllocateMemory;
        atBindBufferMemory bufferA; atBindBufferMemory bufferB;
        atBindBufferMemory bufferResult; atAllocateDescriptorSets;
        atCreateCommandPool; atAllocateCommandBuffers; atEndCommandBuffer]).
Proof.
  unfold setup.
  eapply cases_eq.
  - eapply bind_cases; [apply createContext_cases|].
    eapply bind_cases; [apply createPipeline_cases|].
    eapply bind_cases; [apply createBuffers_cases|].
    eapply bind_cases; [apply allocateAndBind_cases|].
    eapply bind_cases; [apply createDescriptorSet_cases|].
    eapply bind_cases; [apply updateAndRecord_cases|].
    apply ret_cases.
  - unfold setupCalls, selectionCalls. cbn [app]. rewrite <- !app_assoc.
    reflexivity.
  - reflexivity.
  - blame.
Qed.

Lemma writeInputs_cases drv m :
  cases (writeInputs drv m) [vkMapMemory; vkUnmapMemory]
    (writeLoop (Z.to_nat elements) 0 0 (0 + elements) (0 + elements) m)
    (inr tt) (failed drv [atMapMemoryWrite]).
Proof. unfold writeInputs. phase_cases. Qed.

Lemma submitAndWait_cases drv offsets m :
  cases (submitAndWait drv offsets m) [vkQueueSubmit; vkQueueWaitIdle]
    (if result drv atQueueSubmit =? 0 then deviceExecute offsets m else m)
    (inr tt) False.
Proof.
  unfold submitAndWait. left. split; [tauto|]. unfold completes, bind.
  destruct (result drv atQueueSubmit =? 0); reflexivity.
Qed.

Lemma readBack_cases drv m :
  cases (readBack drv m)
    ([vkMapMemory]
     ++ verifyLoop (Z.to_nat elements) 0 0 (0 + (0 + elements))
          (0 + (0 + elements + elements)) m
     ++ [vkUnmapMemory])
    m (inr tt) (failed drv [atMapMemoryRead]).
Proof.
  unfold readBack.
  eapply cases_eq; [ | reflexivity | reflexivity | ].
  - eapply bind_cases; [apply call_cases|].
    apply crash_guard_cases; intros _.
    eapply bind_cases; [apply emit_cases|]. apply call_cases.
  - blame.
Qed.

Lemma teardown_cases m :
  cases (teardown m)
    [vkDestroyCommandPool; vkFreeMemory; vkDestroyBuffer bufferResult;
     vkDestroyBuffer bufferB; vkDestroyBuffer bufferA;
     vkDestroyDescriptorPool; vkDestroyPipeline; vkDestroyPipelineLayout;
     vkDestroyDescriptorSetLayout; vkDestroyDevice; vkDestroyInstance;
     printf_success]
    m (inl (Return 0)) False.
Proof.
  unfold teardown.
  eapply cases_eq; [repeat step_cases | reflexivity | reflexivity | tauto].
Qed.

Lemma executeBatch_cases drv :
  cases (executeBatch drv (bindOffsets drv) (initialMemory drv))
    (batchCalls drv) (executedMemory drv) (inl (Return 0))
    (failed drv [atMapMemoryWrite; atMapMemoryRead]).
Proof.
  unfold executeBatch.
  eapply cases_eq.
  - eapply bind_cases; [apply writeInputs_cases|].
    eapply bind_cases; [apply submitAndWait_cases|].
    eapply bind_cases; [apply readBack_cases|].
    apply teardown_cases.
  - unfold batchCalls, mismatchReports, executedMemory, writtenMemory.
    cbn [app]. rewrite <- !app_assoc. reflexivity.
  - unfold executedMemory, writtenMemory. reflexivity.
  - blame.
Qed.

Lemma failed_iff_not_all drv sites :
  failed drv sites <-> ~ Forall (fun s => result drv s = VK_SUCCESS) sites.
Proof.
  unfold failed. split.
  - intros He Hf. rewrite Exists_exists in He. destruct He as (s & Hin & Hs).
    rewrite Forall_forall in Hf. exact (Hs (Hf s Hin)).
  - intros Hn. apply not_Forall_Exists in Hn; [exact Hn|].
    intros s. apply Z.eq_dec.
Qed.

Lemma succeeds_iff drv :
  ~ succeeds drv <->
  (memoryTypeIndexOf drv < 0 \/
   failed drv
     [atCreateInstance; atEnumerateCount; atEnumerateDevices; atCreateDevice;
      atCreateDescriptorSetLayout; atCreateComputePipelines;
      atCreateBuffer bufferA; atCreateBuffer bufferB;
      atCreateBuffer bufferResult; atAllocateMemory;
      atBindBufferMemory bufferA; atBindBufferMemory bufferB;
      atBindBufferMemory bufferResult; atAllocateDescriptorSets;
      atCreateCommandPool; atAllocateCommandBuffers; atEndCommandBuffer])
  \/ failed drv [atMapMemoryWrite; atMapMemoryRead].
Proof.
  unfold succeeds.
  match goal with
  | |- context [_ < 0 \/ failed drv ?l] => set (early := l)
  end.
  change checkedSites with (early ++ [atMapMemoryWrite]).
  rewrite Forall_app.
  rewrite (failed_iff_not_all drv early).
  set (E := Forall (fun s => result drv s = VK_SUCCESS) early).
  assert (DE : E \/ ~ E).
  { destruct (Forall_dec (fun s => result drv s = VK_SUCCESS)
                (fun s => Z.eq_dec (result drv s) VK_SUCCESS) early);
      [left | right]; assumption. }
  unfold failed. rewrite !Exists_cons, Exists_nil, Forall_cons_iff, Forall_nil_iff.
  unfold VK_SUCCESS.
  assert (DW : result drv atMapMemoryWrite = 0 \/ result drv atMapMemoryWrite <> 0)
    by lia.
  assert (DR : result drv atMapMemoryRead = 0 \/ result drv atMapMemoryRead <> 0)
    by lia.
  assert (DI : memoryTypeIndexOf drv < 0 \/ 0 <= memoryTypeIndexOf drv) by lia.
  assert (NI : memoryTypeIndexOf drv < 0 -> 0 <= memoryTypeIndexOf drv -> False)
    by lia.
  clearbody E. tauto.
Qed.

(** Every run makes a prefix of the calls of a complete run; it makes all of
    them and ends with [return 0] unless a tested call fails or no memory
    type is found. *)
Lemma run_cases drv :
  cases (run drv) (completeTrace drv) (executedMemory drv) (inl (Return 0))
        (~ succeeds drv).
Proof.
  unfold run, main, completeTrace.
  eapply cases_eq; [ | reflexivity | reflexivity | ].
  - eapply bind_cases; [apply setup_cases | apply executeBatch_cases].
  - symmetry. apply succeeds_iff.
Qed.

Lemma trace_prefix drv : trace drv `prefix_of` completeTrace drv.
Proof.
  destruct (run_cases drv) as [[_ H] | [H _]]; unfold trace.
  - rewrite H. reflexivity.
  - exact H.
Qed.

Lemma run_complete drv :
  outcome drv = Some (Return 0) ->
  run drv = mkStep (completeTrace drv) (executedMemory drv) (inl (Return 0)).
Proof.
  intros Ho.
  destruct (run_cases drv) as [[_ H] | (_ & (o & Hn & Hne) & _)]; [exact H|].
  unfold outcome in Ho. rewrite Hn in Ho. congruence.
Qed.

Lemma trace_complete drv :
  outcome drv = Some (Return 0) -> trace drv = completeTrace drv.
Proof. intros H. unfold trace. rewrite (run_complete drv H). reflexivity. Qed.

Lemma finalMemory_complete drv :
  outcome drv = Some (Return 0) -> finalMemory drv = executedMemory drv.
Proof.
  intros H. unfold finalMemory. rewrite (run_complete drv H). reflexivity.
Qed.

(** [main] returns 0 exactly when the driver cooperates. *)
Lemma succeeds_outcome drv : succeeds drv -> outcome drv = Some (Return 0).
Proof.
  intros S. unfold outcome.
  rewrite (cases_completes _ _ _ _ _ (run_cases drv)); [reflexivity|].
  intros H. exact (H S).
Qed.

Lemma succeeds_decidable drv : succeeds drv \/ ~ succeeds drv.
Proof.
  unfold succeeds.
  destruct (Forall_dec (fun s => result drv s = VK_SUCCESS)
              (fun s => Z.eq_dec (result drv s) VK_SUCCESS) checkedSites)
    as [F|F]; [|tauto].
  destruct (Z_le_dec 0 (memoryTypeIndexOf drv)) as [I|I]; [|tauto].
  destruct (Z.eq_dec (result drv atMapMemoryRead) VK_SUCCESS) as [R|R]; tauto.
Qed.

Lemma outcome_succeeds drv : outcome drv = Some (Return 0) -> succeeds drv.
Proof.
  intros Ho.
  destruct (run_cases drv) as [[Hs _] | (_ & (o & Hn & Hne) & _)].
  - destruct (succeeds_decidable drv); tauto.
  - unfold outcome in Ho. rewrite Hn in Ho. congruence.
Qed.

(** ** Queue family and device selection *)

Lemma findQueueFamily_none bit props index :
  Forall (fun q => ~ has_capability bit q) props ->
  findQueueFamily bit props index = None.
Proof.
  intros H. revert index. induction H as [|q rest Hq _ IH]; intros index.
  - reflexivity.
  - cbn [findQueueFamily]. unfold has_capability in Hq.
    destruct (Z.eqb_spec (Z.land (queueFlags q) bit) 0) as [E|E].
    + apply IH.
    + contradiction.
Qed.

Lemma findQueueFamily_first bit fpre f fpost index :
  Forall (fun q => ~ has_capability bit q) fpre ->
  has_capability bit f ->
  0 <= index -> index + Z.of_nat (length fpre) < 2 ^ 32 ->
  findQueueFamily bit (fpre ++ f :: fpost) index
  = Some (index + Z.of_nat (length fpre)).
Proof.
  intros Hpre Hf. revert index.
  induction Hpre as [|q rest Hq _ IH]; intros index H0 Hlt.
  - cbn [app findQueueFamily length]. unfold has_capability in Hf.
    destruct (Z.eqb_spec (Z.land (queueFlags f) bit) 0) as [E|E];
      [contradiction|]. f_equal. lia.
  - cbn [app findQueueFamily]. unfold has_capability in Hq.
    destruct (Z.eqb_spec (Z.land (queueFlags q) bit) 0) as [E|E];
      [|contradiction].
    cbn [length] in Hlt. rewrite Nat2Z.inj_succ in Hlt.
    rewrite uint32_small by lia. rewrite IH by lia.
    f_equal. cbn [length]. lia.
Qed.

Lemma selectDeviceLoop_skip bit pre rest q :
  Forall (incapable bit) pre ->
  selectDeviceLoop bit (pre ++ rest) VK_NULL_HANDLE q
  = selectDeviceLoop bit rest VK_NULL_HANDLE q.
Proof.
  intros H. induction H as [|d pre Hd _ IH]; [reflexivity|].
  cbn [app selectDeviceLoop].
  rewrite (findQueueFamily_none _ _ _ Hd). cbn. exact IH.
Qed.

Lemma selectDeviceProg_skip bit pre rest q m :
  Forall (incapable bit) pre ->
  calls (selectDeviceProg bit (pre ++ rest) VK_NULL_HANDLE q m)
  = flat_map (fun d => [vkGetPhysicalDeviceQueueFamilyProperties (handle d);
                        vkGetPhysicalDeviceQueueFamilyProperties (handle d)])
             pre
    ++ calls (selectDeviceProg bit rest VK_NULL_HANDLE q m).
Proof.
  intros H. induction H as [|d pre Hd _ IH]; [reflexivity|].
  cbn [app selectDeviceProg flat_map].
  rewrite (findQueueFamily_none _ _ _ Hd).
  unfold bind at 1 2. cbn [call calls next mem]. cbn [Z.eqb VK_NULL_HANDLE].
  rewrite IH. reflexivity.
Qed.

(** C5: [selectDevice] walks the devices in enumeration order and each
    device's queue families in index order, and yields the first device
    owning a family with the required capability bit together with the index
    of its first such family; the queue families of the devices before it and
    of that device are the only ones queried.  With two incapable devices in
    front and the capable family at index 2 this is "the third device and
    family index 2". *)
Theorem selectDevice_first_match bit pre d post fpre f fpost m :
  Forall (incapable bit) pre ->
  queueFamilyProperties d = fpre ++ f :: fpost ->
  Forall (fun q => ~ has_capability bit q) fpre ->
  has_capability bit f ->
  handle d <> VK_NULL_HANDLE ->
  Z.of_nat (length fpre) < 2 ^ 32 ->
  selectDevice bit (pre ++ d :: post) = (handle d, Z.of_nat (length fpre)) /\
  calls (selectDeviceProg bit (pre ++ d :: post) VK_NULL_HANDLE 0 m)
  = flat_map (fun d => [vkGetPhysicalDeviceQueueFamilyProperties (handle d);
                        vkGetPhysicalDeviceQueueFamilyProperties (handle d)])
             (pre ++ [d]).
Proof.
  intros Hpre Hd Hfpre Hf Hh Hlen.
  assert (Hfind : findQueueFamily bit (queueFamilyProperties d) 0
                  = Some (Z.of_nat (length fpre))).
  { rewrite Hd. rewrite (findQueueFamily_first bit fpre f fpost 0); auto; lia. }
  assert (Hnz : (handle d =? VK_NULL_HANDLE) = false)
    by (apply Z.eqb_neq; exact Hh).
  split.
  - unfold selectDevice. rewrite selectDeviceLoop_skip by exact Hpre.
    cbn [selectDeviceLoop]. rewrite Hfind, Hnz. reflexivity.
  - rewrite selectDeviceProg_skip by exact Hpre.
    rewrite flat_map_app. f_equal.
    cbn [selectDeviceProg flat_map]. rewrite Hfind, Hnz.
    unfold bind. cbn. reflexivity.
Qed.

Lemma selectDevice_first_match_witness :
  selectDevice VK_QUEUE_COMPUTE_BIT three_devices = (33, 2) /\
  calls (selectDeviceProg VK_QUEUE_COMPUTE_BIT three_devices VK_NULL_HANDLE 0
           (fun _ => 0))
  = [vkGetPhysicalDeviceQueueFamilyProperties 11;
     vkGetPhysicalDeviceQueueFamilyProperties 11;
     vkGetPhysicalDeviceQueueFamilyProperties 22;
     vkGetPhysicalDeviceQueueFamilyProperties 22;
     vkGetPhysicalDeviceQueueFamilyProperties 33;
     vkGetPhysicalDeviceQueueFamilyProperties 33].
Proof.
  apply (selectDevice_first_match VK_QUEUE_COMPUTE_BIT
           [ {| handle := 11; queueFamilyProperties := [queueFamily 1] |};
             {| handle := 22;
                queueFamilyProperties := [queueFamily 1; queueFamily 4] |} ]
           {| handle := 33;
              queueFamilyProperties :=
                [queueFamily 1; queueFamily 4; queueFamily 2] |}
           [] [queueFamily 1; queueFamily 4] (queueFamily 2) [] (fun _ => 0)).
  - repeat constructor; vm_compute; intros H; apply H; reflexivity.
  - reflexivity.
  - repeat constructor; vm_compute; intros H; apply H; reflexivity.
  - vm_compute. discriminate.
  - vm_compute. discriminate.
  - vm_compute. reflexivity.
Defined.

(** ** No capable device *)

Lemma vk_run drv c s m :
  vk drv c s m =
  if result drv s =? 0 then mkStep [c] m (inr tt)
  else mkStep [c] m (inl (Return (result drv s))).
Proof.
  unfold vk, bind, fail_if. cbn [call next calls mem].
  destruct (result drv s =? 0); reflexivity.
Qed.

Section BindRun.
Context {A B : Type} (p : Prog A) (f : A -> Prog B) (m : Memory).

Lemma bind_run_inr c m1 v :
  p m = mkStep c m1 (inr v) ->
  bind p f m = mkStep (c ++ calls (f v m1)) (mem (f v m1)) (next (f v m1)).
Proof. intros H. unfold bind. rewrite H. reflexivity. Qed.

Lemma bind_run_inl c m1 o :
  p m = mkStep c m1 (inl o) -> bind p f m = mkStep c m1 (inl o).
Proof. intros H. unfold bind. rewrite H. reflexivity. Qed.

Lemma bind_calls_prefix : calls (p m) `prefix_of` calls (bind p f m).
Proof.
  unfold bind. destruct (next (p m)); cbn [calls].
  - reflexivity.
  - apply prefix_app_r. reflexivity.
Qed.

Lemma bind_next_inl o : next (p m) = inl o -> next (bind p f m) = inl o.
Proof. intros H. unfold bind. rewrite H. reflexivity. Qed.
End BindRun.

Lemma selectDevice_none bit devs :
  Forall (incapable bit) devs ->
  selectDevice bit devs = (VK_NULL_HANDLE, 0).
Proof.
  intros H. unfold selectDevice.
  rewrite <- (app_nil_r devs). rewrite selectDeviceLoop_skip by exact H.
  reflexivity.
Qed.

(** What [createContext] does once the instance exists and the devices are
    enumerated. *)
Lemma createContext_run drv m :
  result drv atCreateInstance = VK_SUCCESS ->
  result drv atEnumerateCount = VK_SUCCESS ->
  result drv atEnumerateDevices = VK_SUCCESS ->
  createContext drv m =
  mkStep
    ([vkCreateInstance; vkEnumeratePhysicalDevices; vkEnumeratePhysicalDevices]
     ++ calls (selectDeviceProg VK_QUEUE_COMPUTE_BIT (physicalDevices drv)
                 VK_NULL_HANDLE 0 m)
     ++ vkCreateDevice (fst (selected drv)) (snd (selected drv))
        :: (if result drv atCreateDevice =? 0
            then [vkGetDeviceQueue (snd (selected drv))] else []))
    m
    (if result drv atCreateDevice =? 0 then inr (selected drv)
     else inl (Return (result drv atCreateDevice))).
Proof.
  intros H1 H2 H3. unfold createContext.
  rewrite (bind_run_inr _ _ _ [vkCreateInstance] m tt)
    by (rewrite vk_run, H1; reflexivity).
  rewrite (bind_run_inr _ _ _ [vkEnumeratePhysicalDevices] m tt)
    by (rewrite vk_run, H2; reflexivity).
  rewrite (bind_run_inr _ _ _ [vkEnumeratePhysicalDevices] m tt)
    by (rewrite vk_run, H3; reflexivity).
  rewrite (bind_run_inr _ _ _ _ m _ (selectDeviceProg_step _ _ _ _ m)).
  cbn [calls mem next app].
  fold (selected drv). unfold bind. rewrite vk_run.
  destruct (result drv atCreateDevice =? 0); cbn; rewrite <- ?app_assoc;
    reflexivity.
Qed.

Lemma trace_createContext drv :
  calls (createContext drv (initialMemory drv)) `prefix_of` trace drv.
Proof.
  unfold trace, run, main, setup.
  etransitivity; [|apply bind_calls_prefix]. apply bind_calls_prefix.
Qed.

Lemma outcome_createContext drv o :
  next (createContext drv (initialMemory drv)) = inl o ->
  outcome drv = Some o.
Proof.
  intros H. unfold outcome, run, main, setup.
  rewrite (bind_next_inl _ _ _ o); [reflexivity|].
  apply bind_next_inl. exact H.
Qed.

(** C3, as the code has it: when no enumerated device has a compute-capable
    queue family the selection loop raises nothing; it leaves
    [physicalDevice = VK_NULL_HANDLE] and [queueFamilyIndex = 0], and (once
    the instance exists and the devices are enumerated) [main] goes on to
    call vkCreateDevice on that null handle; if that call reports an error,
    the error code is what [main] returns. *)
Theorem no_capable_device_proceeds drv :
  Forall (incapable VK_QUEUE_COMPUTE_BIT) (physicalDevices drv) ->
  result drv atCreateInstance = VK_SUCCESS ->
  result drv atEnumerateCount = VK_SUCCESS ->
  result drv atEnumerateDevices = VK_SUCCESS ->
  selectDevice VK_QUEUE_COMPUTE_BIT (physicalDevices drv) = (VK_NULL_HANDLE, 0)
  /\ (exists rest,
        trace drv =
        [vkCreateInstance; vkEnumeratePhysicalDevices;
         vkEnumeratePhysicalDevices]
        ++ selectionCalls drv ++ vkCreateDevice VK_NULL_HANDLE 0 :: rest)
  /\ (result drv atCreateDevice <> VK_SUCCESS ->
      outcome drv = Some (Return (result drv atCreateDevice))).
Proof.
  intros Hnone H1 H2 H3.
  pose proof (selectDevice_none _ _ Hnone) as Hsel.
  split; [exact Hsel|]. split.
  - destruct (trace_createContext drv) as [rest Hrest].
    rewrite (createContext_run drv _ H1 H2 H3) in Hrest. cbn [calls] in Hrest.
    unfold selected in Hrest. rewrite Hsel in Hrest. cbn [fst snd] in Hrest.
    eexists. rewrite Hrest. unfold selectionCalls.
    cbn [app]. rewrite <- !app_assoc. cbn [app]. reflexivity.
  - intros Hfail. apply outcome_createContext.
    rewrite (createContext_run drv _ H1 H2 H3). cbn [next].
    unfold VK_SUCCESS in Hfail. apply Z.eqb_neq in Hfail.
    rewrite Hfail. reflexivity.
Qed.

Lemma no_capable_device_proceeds_witness :
  selectDevice VK_QUEUE_COMPUTE_BIT (physicalDevices graphics_only_driver)
  = (VK_NULL_HANDLE, 0)
  /\ (exists rest,
        trace graphics_only_driver =
        [vkCreateInstance; vkEnumeratePhysicalDevices;
         vkEnumeratePhysicalDevices]
        ++ selectionCalls graphics_only_driver
        ++ vkCreateDevice VK_NULL_HANDLE 0 :: rest)
  /\ (result graphics_only_driver atCreateDevice <> VK_SUCCESS ->
      outcome graphics_only_driver
      = Some (Return (result graphics_only_driver atCreateDevice))).
Proof.
  apply (no_capable_device_proceeds graphics_only_driver).
  - repeat constructor; vm_compute; intros H; apply H; reflexivity.
  - reflexivity.
  - reflexivity.
  - reflexivity.
Defined.

(** C3 as stated fails: [graphics_only_driver] offers no compute-capable
    family, yet [main] calls vkCreateDevice on the null handle. *)
Lemma no_capable_device_not_reported :
  ~ reports_no_capable_device graphics_only_driver.
Proof.
  unfold reports_no_capable_device. intros H.
  apply (H ltac:(repeat constructor; vm_compute; intros C; apply C; reflexivity) 0).
  vm_compute. tauto.
Qed.

(** ** Memory type selection *)

Lemma land_pow2 a i :
  0 <= i -> Z.land a (2 ^ i) = if Z.testbit a i then 2 ^ i else 0.
Proof.
  intros Hi. apply Z.bits_inj'. intros n Hn.
  rewrite Z.land_spec, Z.pow2_bits_eqb by exact Hi.
  destruct (Z.eqb_spec i n) as [->|Hne].
  - destruct (Z.testbit a n) eqn:E; cbn.
    + rewrite Z.pow2_bits_eqb by exact Hn. rewrite Z.eqb_refl. reflexivity.
    + rewrite Z.bits_0. reflexivity.
  - rewrite andb_false_r.
    destruct (Z.testbit a i).
    + rewrite Z.pow2_bits_eqb by exact Hi.
      symmetry. apply Z.eqb_neq. exact Hne.
    + rewrite Z.bits_0. reflexivity.
Qed.

(** Inside the array bound the test [memoryTypeBits & (1 << index)] is the
    bit test. *)
Lemma type_bit_test bits i :
  0 <= i < 32 ->
  negb (Z.land bits (uint32 (Z.shiftl 1 i)) =? 0) = Z.testbit bits i.
Proof.
  intros Hi. rewrite Z.shiftl_1_l.
  rewrite uint32_small.
  2:{ split; [apply Z.pow_nonneg; lia|].
      apply Z.pow_lt_mono_r; lia. }
  rewrite land_pow2 by lia.
  destruct (Z.testbit bits i); cbn.
  - assert (0 < 2 ^ i) by (apply Z.pow_pos_nonneg; lia).
    destruct (Z.eqb_spec (2 ^ i) 0); [lia | reflexivity].
  - reflexivity.
Qed.

Lemma findMemoryTypeLoop_spec n index bits p req :
  0 <= index -> index + Z.of_nat n <= 32 ->
  let r := findMemoryTypeLoop n index bits p req in
  (r = -1 /\
   forall j, index <= j < index + Z.of_nat n -> ~ exact_match bits p req j)
  \/
  (index <= r < index + Z.of_nat n /\ exact_match bits p req r /\
   forall j, index <= j < r -> ~ exact_match bits p req j).
Proof.
  revert index. induction n as [|n IH]; intros index H0 Hle; cbn zeta.
  - left. split; [reflexivity|]. intros j Hj. lia.
  - cbn [findMemoryTypeLoop].
    rewrite type_bit_test by lia.
    destruct (Z.testbit bits index) eqn:Eb; cbn [andb].
    + destruct (Z.eqb_spec (propertyFlagsAt p index) req) as [Ef|Ef].
      * right. split; [lia|]. split; [split; assumption|]. intros j Hj. lia.
      * specialize (IH (index + 1) ltac:(lia) ltac:(lia)). cbn zeta in IH.
        destruct IH as [[Hr Hnone] | (Hr & Hm & Hmin)].
        -- left. split; [exact Hr|]. intros j Hj.
           destruct (Z.eq_dec j index) as [->|Hne].
           ++ intros [_ Hf]. contradiction.
           ++ apply Hnone. lia.
        -- right. split; [lia|]. split; [exact Hm|]. intros j Hj.
           destruct (Z.eq_dec j index) as [->|Hne].
           ++ intros [_ Hf]. contradiction.
           ++ apply Hmin. lia.
    + specialize (IH (index + 1) ltac:(lia) ltac:(lia)). cbn zeta in IH.
      destruct IH as [[Hr Hnone] | (Hr & Hm & Hmin)].
      * left. split; [exact Hr|]. intros j Hj.
        destruct (Z.eq_dec j index) as [->|Hne].
        -- intros [Hb _]. congruence.
        -- apply Hnone. lia.
      * right. split; [lia|]. split; [exact Hm|]. intros j Hj.
        destruct (Z.eq_dec j index) as [->|Hne].
        -- intros [Hb _]. congruence.
        -- apply Hmin. lia.
Qed.

(** The function returns either -1, when no usable type has exactly the
    requested flags, or the least usable index whose flags are exactly the
    requested ones. *)
Lemma findMemoryTypeFromProperties_spec bits p req :
  wf_memory_properties p ->
  let r := findMemoryTypeFromProperties bits p req in
  (r = -1 /\
   forall j, 0 <= j < memoryTypeCount p -> ~ exact_match bits p req j)
  \/
  (0 <= r < memoryTypeCount p /\ exact_match bits p req r /\
   forall j, 0 <= j < r -> ~ exact_match bits p req j).
Proof.
  intros [Hc _]. unfold VK_MAX_MEMORY_TYPES in Hc. cbn zeta.
  unfold findMemoryTypeFromProperties.
  pose proof (findMemoryTypeLoop_spec (Z.to_nat (memoryTypeCount p)) 0 bits p
                req ltac:(lia) ltac:(lia)) as H.
  cbn zeta in H. rewrite Z2Nat.id in H by lia. exact H.
Qed.

Lemma selectionCalls_queries bit devs pd q m :
  Forall is_query (calls (selectDeviceProg bit devs pd q m)).
Proof.
  revert pd q. induction devs as [|d rest IH]; intros pd q.
  - constructor.
  - cbn [selectDeviceProg].
    destruct (findQueueFamily bit (queueFamilyProperties d) 0) as [index|];
      unfold bind; cbn [call calls next mem app].
    + constructor; [exact I|]. constructor; [exact I|].
      destruct (handle d =? VK_NULL_HANDLE); [apply IH | constructor].
    + constructor; [exact I|]. constructor; [exact I|].
      destruct (pd =? VK_NULL_HANDLE); [apply IH | constructor].
Qed.

Lemma allocateAndBind_no_type drv m :
  memoryTypeIndexOf drv < 0 ->
  allocateAndBind drv (fst (selected drv)) m =
  mkStep [vkGetBufferMemoryRequirements bufferA;
          vkGetBufferMemoryRequirements bufferA;
          vkGetBufferMemoryRequirements bufferA;
          vkGetPhysicalDeviceMemoryProperties (fst (selected drv))]
         m (inl (Return (-43))).
Proof.
  intros H. unfold allocateAndBind.
  do 4 (rewrite (bind_run_inr _ _ _ _ m tt) by reflexivity).
  fold HOST_VISIBLE_COHERENT. fold (memoryTypeIndexOf drv).
  assert (E : (0 >? memoryTypeIndexOf drv) = true) by lia.
  rewrite E. reflexivity.
Qed.

(** The run up to the point where no memory type is found. *)
Lemma run_no_type drv :
  ~ failed drv sitesBeforeMemoryType ->
  memoryTypeIndexOf drv < 0 ->
  run drv =
  mkStep
    ([vkCreateInstance; vkEnumeratePhysicalDevices; vkEnumeratePhysicalDevices]
     ++ selectionCalls drv
     ++ [vkCreateDevice (fst (selected drv)) (snd (selected drv));
         vkGetDeviceQueue (snd (selected drv));
         vkCreateDescriptorSetLayout layoutBindings;
         vkCreatePipelineLayout; vkCreateShaderModule;
         vkCreateComputePipelines; vkDestroyShaderModule;
         vkCreateBuffer bufferA (uint64 (4 * elements));
         vkCreateBuffer bufferB (uint64 (4 * elements));
         vkCreateBuffer bufferResult (uint64 (4 * elements));
         vkGetBufferMemoryRequirements bufferA;
         vkGetBufferMemoryRequirements bufferA;
         vkGetBufferMemoryRequirements bufferA;
         vkGetPhysicalDeviceMemoryProperties (fst (selected drv))])
    (initialMemory drv) (inl (Return (-43))).
Proof.
  intros Hok Hidx. unfold sitesBeforeMemoryType, failed in Hok.
  rewrite !Exists_cons, Exists_nil in Hok.
  unfold run, main, setup.
  erewrite bind_run_inl; [reflexivity|].
  erewrite bind_run_inr.
  2:{ apply (cases_completes _ _ _ _ _ (createContext_cases drv _)).
      unfold failed. rewrite !Exists_cons, Exists_nil. tauto. }
  erewrite bind_run_inr.
  2:{ apply (cases_completes _ _ _ _ _ (createPipeline_cases drv _ _)).
      unfold failed. rewrite !Exists_cons, Exists_nil. tauto. }
  erewrite bind_run_inr.
  2:{ apply (cases_completes _ _ _ _ _ (createBuffers_cases drv _)).
      unfold failed. rewrite !Exists_cons, Exists_nil. tauto. }
  erewrite bind_run_inl by (apply allocateAndBind_no_type; exact Hidx).
  cbn [calls mem next app]. unfold selectionCalls.
  rewrite <- !app_assoc. reflexivity.
Qed.

(** C4: a memory type is chosen only when its property flags equal the
    requested set exactly.  When no type that the buffer may use has exactly
    the flags HOST_VISIBLE|HOST_COHERENT (supersets do not count),
    [findMemoryTypeFromProperties] returns -1, and [main], having got that
    far, returns [~42 = -43] without attempting the allocation. *)
Theorem memory_type_exact_or_sentinel drv :
  let bits := memoryTypeBits (getBufferMemoryRequirements drv bufferA) in
  let props := getPhysicalDeviceMemoryProperties drv (fst (selected drv)) in
  wf_memory_properties props ->
  ~ failed drv sitesBeforeMemoryType ->
  (forall i, 0 <= i < memoryTypeCount props ->
             ~ exact_match bits props HOST_VISIBLE_COHERENT i) ->
  findMemoryTypeFromProperties bits props HOST_VISIBLE_COHERENT = -1 /\
  outcome drv = Some (Return (-43)) /\
  bitnot 42 = -43 /\
  forall s t, ~ In (vkAllocateMemory s t) (trace drv).
Proof.
  intros bits props Hwf Hok Hnone.
  assert (Hfind : findMemoryTypeFromProperties bits props HOST_VISIBLE_COHERENT
                  = -1).
  { destruct (findMemoryTypeFromProperties_spec bits props
                HOST_VISIBLE_COHERENT Hwf) as [[Hr _] | (Hr & Hm & _)].
    - exact Hr.
    - exfalso. exact (Hnone _ Hr Hm). }
  assert (Hidx : memoryTypeIndexOf drv < 0).
  { unfold memoryTypeIndexOf. fold bits props. rewrite Hfind. lia. }
  pose proof (run_no_type drv Hok Hidx) as Hrun.
  split; [exact Hfind|]. split; [|split; [reflexivity|]].
  - unfold outcome. rewrite Hrun. reflexivity.
  - intros s t. unfold trace. rewrite Hrun. cbn [calls].
    rewrite !in_app_iff. intros [H | [H | H]].
    + cbn in H. intuition discriminate.
    + pose proof (selectionCalls_queries VK_QUEUE_COMPUTE_BIT
                    (physicalDevices drv) VK_NULL_HANDLE 0 (initialMemory drv))
        as Hq.
      rewrite Forall_forall in Hq. apply Hq in H. exact H.
    + cbn in H. intuition discriminate.
Qed.

Lemma memory_type_exact_or_sentinel_witness :
  findMemoryTypeFromProperties 3 (memoryTypeTable [1; 14]) HOST_VISIBLE_COHERENT
  = -1 /\
  outcome superset_only_driver = Some (Return (-43)) /\
  bitnot 42 = -43 /\
  forall s t, ~ In (vkAllocateMemory s t) (trace superset_only_driver).
Proof.
  apply (memory_type_exact_or_sentinel superset_only_driver).
  - split; [vm_compute; split; discriminate | reflexivity].
  - unfold failed, sitesBeforeMemoryType.
    rewrite !Exists_cons, Exists_nil. vm_compute. tauto.
  - intros i Hi [Hb Hf]. revert Hb Hf.
    change (0 <= i < 2) in Hi.
    assert (Hc : i = 0 \/ i = 1) by lia.
    destruct Hc as [-> | ->]; vm_compute; discriminate.
Defined.

(** ** Host writes, the dispatch, and the read-back *)

(** After the initialisation loop with [bData] and [resultData] at the same
    address [b]: the [b] range holds 42 (the store through [resultData]
    comes last in each iteration), the [a] range holds the index. *)
Lemma writeLoop_aliased n index a b m x :
  0 <= index -> index + Z.of_nat n < 2 ^ 31 -> Z.of_nat n <= b - a ->
  writeLoop n index a b b m x =
  if decide (index <= x - b < index + Z.of_nat n) then 42
  else if decide (index <= x - a < index + Z.of_nat n) then x - a
  else m x.
Proof.
  revert index m. induction n as [|n IH]; intros index m H0 Hlt Hd.
  - cbn [writeLoop]. repeat case_decide; first [lia | reflexivity].
  - cbn [writeLoop]. rewrite int32_small by lia.
    rewrite IH by lia.
    repeat case_decide; try lia; try reflexivity.
    + assert (x = b + index) as -> by lia.
      rewrite fn_lookup_insert. reflexivity.
    + assert (x = a + index) as -> by lia.
      rewrite fn_lookup_insert_ne by lia.
      rewrite fn_lookup_insert_ne by lia.
      rewrite fn_lookup_insert. lia.
    + rewrite !fn_lookup_insert_ne by lia. reflexivity.
Qed.

(** The dispatch, when the result range lies behind both input ranges. *)
Lemma vector_add_disjoint n i a b r m x :
  Z.of_nat n <= r - a -> Z.of_nat n <= r - b -> a <= r -> b <= r ->
  vector_add n i a b r m x =
  if decide (i <= x - r < i + Z.of_nat n)
  then int32 (m (a + (x - r)) + m (b + (x - r)))
  else m x.
Proof.
  revert i m. induction n as [|n IH]; intros i m Ha Hb Har Hbr.
  - cbn [vector_add]. case_decide; [lia | reflexivity].
  - cbn [vector_add]. rewrite IH by lia.
    repeat case_decide; try lia. all: swap 1 2.
    + assert (x = r + i) as -> by lia.
      rewrite fn_lookup_insert. do 3 f_equal; lia.
    + rewrite !fn_lookup_insert_ne by lia. reflexivity.
    + rewrite fn_lookup_insert_ne by lia. reflexivity.
Qed.

Lemma verifyLoop_nil n index a b r m :
  0 <= index -> index + Z.of_nat n <= 2 ^ 32 ->
  (forall j, index <= j < index + Z.of_nat n ->
             m (r + j) = int32 (m (a + j) + m (b + j))) ->
  verifyLoop n index a b r m = [].
Proof.
  revert index. induction n as [|n IH]; intros index H0 Hle Heq.
  - reflexivity.
  - cbn [verifyLoop]. rewrite (Heq index) by lia. rewrite Z.eqb_refl.
    cbn [app].
    destruct (Z.eq_dec (index + 1) (2 ^ 32)) as [E|E].
    + assert (n = 0%nat) as -> by lia. reflexivity.
    + rewrite uint32_small by lia. apply IH; [lia | lia |].
      intros j Hj. apply Heq. lia.
Qed.

Lemma verifyLoop_prints n index a b r m :
  Forall is_report (verifyLoop n index a b r m).
Proof.
  revert index. induction n as [|n IH]; intros index; cbn [verifyLoop].
  - constructor.
  - apply Forall_app. split; [|apply IH].
    destruct (m (r + index) =? _); repeat constructor.
Qed.

Section NominalSizes.
Variable drv : Driver.
Hypothesis size_A : size (getBufferMemoryRequirements drv bufferA) = 4096.

Lemma bindOffsets_4096 : bindOffsets drv = (0, 4096, 8192).
Proof. unfold bindOffsets. rewrite size_A. reflexivity. Qed.

Lemma writtenMemory_at x :
  writtenMemory drv x =
  if decide (1024 <= x < 2048) then 42
  else if decide (0 <= x < 1024) then x
  else initialMemory drv x.
Proof.
  unfold writtenMemory, elements.
  rewrite writeLoop_aliased by (cbn; lia).
  change (Z.of_nat (Z.to_nat 1024)) with 1024.
  repeat case_decide; try lia; reflexivity.
Qed.

Lemma executedMemory_at x :
  result drv atQueueSubmit = VK_SUCCESS ->
  executedMemory drv x =
  if decide (2048 <= x < 3072) then x - 2048 + 42
  else writtenMemory drv x.
Proof.
  intros Hs. unfold executedMemory. rewrite Hs. cbn [Z.eqb VK_SUCCESS].
  rewrite bindOffsets_4096. unfold deviceExecute, elements.
  change (0 / 4) with 0. change (4096 / 4) with 1024.
  change (8192 / 4) with 2048.
  rewrite vector_add_disjoint by (cbn; lia).
  change (Z.of_nat (Z.to_nat 1024)) with 1024.
  repeat case_decide; try lia.
  rewrite (writtenMemory_at (0 + (x - 2048))).
  rewrite (writtenMemory_at (1024 + (x - 2048))).
  repeat case_decide; try lia.
  rewrite int32_small by lia. lia.
Qed.
End NominalSizes.

(** C1, what the code does: on a run that returns 0, with the batch accepted
    and 4096-byte buffer requirements, the read-back finds at every index
    [i < 1024] the input [A[i] = i], the input [B[i] = 42] (the store
    through [resultData] at line 490 lands on [bData[i]] and replaces
    [-i]), and the result [R[i] = i + 42], which is not 0; the verification
    loop compares [R[i]] with [A[i] + B[i]] as read back, so it reports
    nothing and the program prints "success". *)
Theorem readback_is_index_plus_42 drv i :
  outcome drv = Some (Return 0) ->
  result drv atQueueSubmit = VK_SUCCESS ->
  size (getBufferMemoryRequirements drv bufferA) = 4096 ->
  0 <= i < elements ->
  writtenMemory drv (elements + i) = 42 /\
  finalMemory drv i = i /\
  finalMemory drv (elements + i) = 42 /\
  finalMemory drv (2 * elements + i) = i + 42 /\
  finalMemory drv (2 * elements + i) <> 0 /\
  mismatchReports drv = [] /\
  In printf_success (trace drv).
Proof.
  intros Ho Hs Hsz Hi. unfold elements in *.
  rewrite (finalMemory_complete drv Ho).
  rewrite (executedMemory_at drv Hsz i Hs).
  rewrite (executedMemory_at drv Hsz (1024 + i) Hs).
  rewrite (executedMemory_at drv Hsz (2 * 1024 + i) Hs).
  rewrite (writtenMemory_at drv i).
  rewrite (writtenMemory_at drv (1024 + i)).
  repeat case_decide; try lia.
  split; [reflexivity|]. split; [reflexivity|]. split; [reflexivity|].
  split; [lia|]. split; [lia|]. split.
  - unfold mismatchReports, elements. apply verifyLoop_nil; [lia | cbn; lia |].
    change (Z.of_nat (Z.to_nat 1024)) with 1024. intros j Hj.
    rewrite (executedMemory_at drv Hsz (0 + (0 + 1024 + 1024) + j) Hs).
    rewrite (executedMemory_at drv Hsz (0 + j) Hs).
    rewrite (executedMemory_at drv Hsz (0 + (0 + 1024) + j) Hs).
    rewrite (writtenMemory_at drv (0 + j)).
    rewrite (writtenMemory_at drv (0 + (0 + 1024) + j)).
    repeat case_decide; try lia.
    rewrite int32_small by lia. lia.
  - rewrite (trace_complete drv Ho). unfold completeTrace, batchCalls.
    rewrite !in_app_iff. right. right. right. cbn. tauto.
Qed.

Lemma readback_is_index_plus_42_witness :
  writtenMemory nominal_driver (elements + 5) = 42 /\
  finalMemory nominal_driver 5 = 5 /\
  finalMemory nominal_driver (elements + 5) = 42 /\
  finalMemory nominal_driver (2 * elements + 5) = 5 + 42 /\
  finalMemory nominal_driver (2 * elements + 5) <> 0 /\
  mismatchReports nominal_driver = [] /\
  In printf_success (trace nominal_driver).
Proof.
  apply (readback_is_index_plus_42 nominal_driver 5).
  - vm_compute. reflexivity.
  - reflexivity.
  - reflexivity.
  - vm_compute. split; [discriminate | reflexivity].
Defined.

(** ** Memory layout *)

Lemma sumSizes_nonneg reqs :
  Forall (fun r => 0 <= size r) reqs -> 0 <= sumSizes reqs.
Proof.
  induction 1 as [|r rest Hr _ IH]; cbn [sumSizes]; lia.
Qed.

Lemma sumSizes_app l1 l2 : sumSizes (l1 ++ l2) = sumSizes l1 + sumSizes l2.
Proof. induction l1 as [|r l1 IH]; cbn [app sumSizes]; lia. Qed.

Lemma sumSizes_take_le reqs i :
  Forall (fun r => 0 <= size r) reqs ->
  0 <= sumSizes (take i reqs) <= sumSizes reqs.
Proof.
  intros H. rewrite <- (take_drop i reqs) at 3. rewrite sumSizes_app.
  pose proof (sumSizes_nonneg (take i reqs) (Forall_take _ _ _ H)).
  pose proof (sumSizes_nonneg (drop i reqs) (Forall_drop _ _ _ H)).
  lia.
Qed.

Lemma sumSizes_take_S reqs i r :
  reqs !! i = Some r ->
  sumSizes (take (S i) reqs) = sumSizes (take i reqs) + size r.
Proof.
  intros Hi. rewrite (take_S_r _ _ _ Hi), sumSizes_app. cbn [sumSizes]. lia.
Qed.

(** Without wrap-around the offsets are the partial sums of the sizes. *)
Lemma planOffsets_lookup reqs o i r :
  Forall (fun r => 0 <= size r) reqs ->
  0 <= o -> o + sumSizes reqs < 2 ^ 64 ->
  reqs !! i = Some r ->
  planOffsets o reqs !! i = Some (o + sumSizes (take i reqs)).
Proof.
  intros H. revert o i.
  induction H as [|r0 rest Hr Hrest IH]; intros o i Ho Hs Hi.
  - rewrite lookup_nil in Hi. discriminate.
  - cbn [sumSizes] in Hs. pose proof (sumSizes_nonneg rest Hrest).
    destruct i as [|i]; cbn [planOffsets].
    + rewrite take_0. cbn. f_equal. lia.
    + change (rest !! i = Some r) in Hi.
      change (planOffsets (uint64 (o + size r0)) rest !! i
              = Some (o + sumSizes (take (S i) (r0 :: rest)))).
      rewrite uint64_small by lia.
      rewrite (IH (o + size r0) i) by (assumption || lia).
      f_equal. rewrite firstn_cons. cbn [sumSizes]. lia.
Qed.

Lemma planOffsets_length o reqs : length (planOffsets o reqs) = length reqs.
Proof.
  revert o. induction reqs as [|r rest IH]; intros o; cbn; [|rewrite IH];
    reflexivity.
Qed.

Lemma planSize_from acc reqs :
  Forall (fun r => 0 <= size r) reqs ->
  0 <= acc -> acc + sumSizes reqs < 2 ^ 64 ->
  fold_left (fun requiredMemorySize r => uint64 (requiredMemorySize + size r))
            reqs acc = acc + sumSizes reqs.
Proof.
  intros H. revert acc. induction H as [|r rest Hr Hrest IH]; intros acc Ha Hs.
  - cbn. lia.
  - cbn [fold_left sumSizes] in *. pose proof (sumSizes_nonneg rest Hrest).
    rewrite uint64_small by lia. rewrite IH by lia. lia.
Qed.

Lemma regions_lookup reqs i g :
  Forall (fun r => 0 <= size r) reqs ->
  sumSizes reqs < 2 ^ 64 ->
  fst (planAllocation reqs) !! i = Some g ->
  exists r, reqs !! i = Some r /\ g = region (sumSizes (take i reqs)) r.
Proof.
  intros Hpos Hs Hg. unfold planAllocation in Hg. cbn [fst] in Hg.
  apply lookup_zip_with_Some in Hg. destruct Hg as (o & r & -> & Ho & Hr).
  exists r. split; [exact Hr|].
  rewrite (planOffsets_lookup reqs 0 i r Hpos) in Ho by (assumption || lia).
  injection Ho as <-. f_equal.
Qed.

(** ** Projections of a complete trace *)

Section Projections.
Context {X : Type} (f : Call -> list X).
Hypothesis f_query :
  forall pd, f (vkGetPhysicalDeviceQueueFamilyProperties pd) = [].
Hypothesis f_report : forall i g e, f (fprintf_stderr i g e) = [].

Lemma flat_map_queries l : Forall is_query l -> flat_map f l = [].
Proof.
  induction 1 as [|c l Hc _ IH]; [reflexivity|].
  cbn [flat_map]. rewrite IH. destruct c; try contradiction.
  rewrite f_query. reflexivity.
Qed.

Lemma flat_map_reports l : Forall is_report l -> flat_map f l = [].
Proof.
  induction 1 as [|c l Hc _ IH]; [reflexivity|].
  cbn [flat_map]. rewrite IH. destruct c; try contradiction.
  rewrite f_report. reflexivity.
Qed.

(** A projection that ignores queue-family queries and mismatch reports sees
    only the fixed calls of a complete trace. *)
Lemma flat_map_completeTrace drv :
  flat_map f (completeTrace drv) =
  flat_map f [vkCreateInstance; vkEnumeratePhysicalDevices;
              vkEnumeratePhysicalDevices]
  ++ flat_map f
       [vkCreateDevice (fst (selected drv)) (snd (selected drv));
        vkGetDeviceQueue (snd (selected drv));
        vkCreateDescriptorSetLayout layoutBindings;
        vkCreatePipelineLayout; vkCreateShaderModule; vkCreateComputePipelines;
        vkDestroyShaderModule;
        vkCreateBuffer bufferA (uint64 (4 * elements));
        vkCreateBuffer bufferB (uint64 (4 * elements));
        vkCreateBuffer bufferResult (uint64 (4 * elements));
        vkGetBufferMemoryRequirements bufferA;
        vkGetBufferMemoryRequirements bufferA;
        vkGetBufferMemoryRequirements bufferA;
        vkGetPhysicalDeviceMemoryProperties (fst (selected drv));
        vkAllocateMemory (requiredMemorySizeOf drv) (memoryTypeIndexOf drv);
        vkBindBufferMemory bufferA (fst (fst (bindOffsets drv)));
        vkBindBufferMemory bufferB (snd (fst (bindOffsets drv)));
        vkBindBufferMemory bufferResult (snd (bindOffsets drv));
        vkCreateDescriptorPool 1 [poolSize layoutBindings];
        vkAllocateDescriptorSets;
        vkUpdateDescriptorSets descriptorSetWrites;
        vkCreateCommandPool (snd (selected drv));
        vkAllocateCommandBuffers;
        vkBeginCommandBuffer; vkCmdBindPipeline; vkCmdBindDescriptorSets;
        vkCmdDispatch elements 1 1; vkEndCommandBuffer]
  ++ flat_map f [vkMapMemory; vkUnmapMemory; vkQueueSubmit; vkQueueWaitIdle;
                 vkMapMemory]
  ++ flat_map f
       [vkUnmapMemory;
        vkDestroyCommandPool; vkFreeMemory; vkDestroyBuffer bufferResult;
        vkDestroyBuffer bufferB; vkDestroyBuffer bufferA;
        vkDestroyDescriptorPool; vkDestroyPipeline; vkDestroyPipelineLayout;
        vkDestroyDescriptorSetLayout; vkDestroyDevice; vkDestroyInstance;
        printf_success].
Proof.
  unfold completeTrace, setupCalls, batchCalls.
  rewrite !flat_map_app.
  rewrite (flat_map_queries (selectionCalls drv))
    by apply selectionCalls_queries.
  rewrite (flat_map_reports (mismatchReports drv))
    by apply verifyLoop_prints.
  rewrite !app_nil_l, <- !app_assoc. reflexivity.
Qed.
End Projections.

Lemma Forall_prefix {X} (P : X -> Prop) (l1 l2 : list X) :
  l1 `prefix_of` l2 -> Forall P l2 -> Forall P l1.
Proof. intros [k ->] H. apply Forall_app in H. tauto. Qed.

Lemma requiredMemorySizeOf_3 drv :
  requiredMemorySizeOf drv
  = uint64 (3 * size (getBufferMemoryRequirements drv bufferA)).
Proof.
  unfold requiredMemorySizeOf, uint64. cbn zeta.
  rewrite Zplus_mod_idemp_l, <- Z.add_assoc, Zplus_mod_idemp_l.
  f_equal. lia.
Qed.

Lemma bindOffsets_2 drv :
  0 <= size (getBufferMemoryRequirements drv bufferA) < 2 ^ 64 ->
  bindOffsets drv
  = (0, size (getBufferMemoryRequirements drv bufferA),
     uint64 (2 * size (getBufferMemoryRequirements drv bufferA))).
Proof.
  intros H. unfold bindOffsets. cbn zeta.
  rewrite (uint64_small (0 + _)) by lia.
  replace (0 + size (getBufferMemoryRequirements drv bufferA))
    with (size (getBufferMemoryRequirements drv bufferA)) by lia.
  replace (2 * size (getBufferMemoryRequirements drv bufferA))
    with (size (getBufferMemoryRequirements drv bufferA)
          + size (getBufferMemoryRequirements drv bufferA)) by lia.
  reflexivity.
Qed.

Lemma queriedBuffers_complete drv :
  queriedBuffers (completeTrace drv) = [bufferA; bufferA; bufferA].
Proof.
  unfold queriedBuffers. rewrite flat_map_completeTrace by reflexivity.
  reflexivity.
Qed.

Lemma allocationSizes_complete drv :
  allocationSizes (completeTrace drv) = [requiredMemorySizeOf drv].
Proof.
  unfold allocationSizes. rewrite flat_map_completeTrace by reflexivity.
  reflexivity.
Qed.

Lemma bindCalls_complete drv :
  bindCalls (completeTrace drv)
  = [(bufferA, fst (fst (bindOffsets drv)));
     (bufferB, snd (fst (bindOffsets drv)));
     (bufferResult, snd (bindOffsets drv))].
Proof.
  unfold bindCalls. rewrite flat_map_completeTrace by reflexivity.
  reflexivity.
Qed.

(** The layout [main] computes is [planAllocation] on the three requirement
    structs it filled. *)
Lemma main_layout drv :
  planAllocation (requirementsUsed drv)
  = ([region (fst (fst (bindOffsets drv)))
        (getBufferMemoryRequirements drv bufferA);
      region (snd (fst (bindOffsets drv)))
        (getBufferMemoryRequirements drv bufferA);
      region (snd (bindOffsets drv))
        (getBufferMemoryRequirements drv bufferA)],
     requiredMemorySizeOf drv).
Proof. reflexivity. Qed.

(** C2, as the code has it: the regions are laid out one after the other
    with [offset_0 = 0] and [offset_(i+1) = offset_i + size_i], where
    [size_i] is the required size as the driver reported it (it is not
    rounded up to the alignment).  As long as the sizes do not add up past
    the range of VkDeviceSize, the regions do not overlap and the allocation
    size is the sum of the sizes, i.e. the offset just behind the last
    region; a region's offset is a multiple of its alignment when that
    alignment divides the size of every resource placed before it.  [main]
    allocates and binds according to this layout of its three requirement
    structs. *)
Theorem planAllocation_sequential reqs :
  Forall (fun r => 0 <= size r) reqs ->
  sumSizes reqs < 2 ^ 64 ->
  let regions := fst (planAllocation reqs) in
  let total := snd (planAllocation reqs) in
  length regions = length reqs /\
  (forall g, regions !! 0%nat = Some g -> offset g = 0) /\
  (forall i g g', regions !! i = Some g -> regions !! S i = Some g' ->
                  offset g' = offset g + regionSize g) /\
  (forall i r g, reqs !! i = Some r -> regions !! i = Some g ->
                 regionSize g = size r /\ regionAlignment g = alignment r) /\
  non_overlapping regions /\
  total = sumSizes reqs /\
  (forall g, regions !! pred (length regions) = Some g ->
             total = offset g + regionSize g) /\
  (forall j g, regions !! j = Some g ->
     (forall i r, (i < j)%nat -> reqs !! i = Some r ->
                  (regionAlignment g | size r)) ->
     aligned g) /\
  (forall drv, outcome drv = Some (Return 0) ->
     bindCalls (trace drv)
     = zip [bufferA; bufferB; bufferResult]
           (map offset (fst (planAllocation (requirementsUsed drv)))) /\
     allocationSizes (trace drv)
     = [snd (planAllocation (requirementsUsed drv))]).
Proof.
  intros Hpos Hsum regions total.
  assert (Hreg : forall i g, regions !! i = Some g ->
            exists r, reqs !! i = Some r /\
                      g = region (sumSizes (take i reqs)) r)
    by (intros i g; apply regions_lookup; assumption).
  assert (Htotal : total = sumSizes reqs).
  { unfold total, planAllocation, planSize. cbn [snd].
    rewrite planSize_from by (assumption || lia). lia. }
  split; [|split; [|split; [|split; [|split; [|split; [|split; [|split]]]]]]].
  - unfold regions, planAllocation. cbn [fst].
    rewrite length_zip_with, planOffsets_length. lia.
  - intros g Hg. destruct (Hreg _ _ Hg) as (r & _ & ->).
    rewrite take_0. reflexivity.
  - intros i g g' Hg Hg'.
    destruct (Hreg _ _ Hg) as (r & Hr & ->).
    destruct (Hreg _ _ Hg') as (r' & Hr' & ->).
    cbn [region offset regionSize]. apply sumSizes_take_S. exact Hr.
  - intros i r g Hr Hg. destruct (Hreg _ _ Hg) as (r' & Hr' & ->).
    assert (r' = r) as -> by congruence. split; reflexivity.
  - intros i j g g' Hij Hg Hg'.
    destruct (Hreg _ _ Hg) as (r & Hr & ->).
    destruct (Hreg _ _ Hg') as (r' & Hr' & ->).
    cbn [region offset regionSize].
    rewrite <- (sumSizes_take_S reqs i r Hr).
    replace (take (S i) reqs) with (take (S i) (take j reqs))
      by (rewrite take_take; f_equal; lia).
    apply sumSizes_take_le. apply Forall_take. exact Hpos.
  - exact Htotal.
  - intros g Hg.
    destruct (Hreg _ _ Hg) as (r & Hr & ->).
    cbn [region offset regionSize].
    rewrite <- (sumSizes_take_S reqs _ r Hr), Htotal.
    rewrite take_ge; [reflexivity|].
    assert (length regions = length reqs) as <-.
    { unfold regions, planAllocation. cbn [fst].
      rewrite length_zip_with, planOffsets_length. lia. }
    apply lookup_lt_Some in Hg. lia.
  - intros j g Hg Hdiv. destruct (Hreg _ _ Hg) as (r & Hr & ->).
    unfold aligned. cbn [region offset regionAlignment] in *.
    clear Hg Hr. induction j as [|j IH].
    + rewrite take_0. cbn. apply Z.divide_0_r.
    + destruct (reqs !! j) as [rj|] eqn:Hj.
      * rewrite (sumSizes_take_S reqs j rj Hj).
        apply Z.divide_add_r.
        -- apply IH. intros i r' Hi. apply Hdiv. lia.
        -- apply (Hdiv j rj); [lia | exact Hj].
      * apply lookup_ge_None in Hj.
        rewrite take_ge by lia. rewrite <- (take_ge reqs j) by lia.
        apply IH. intros i r' Hi. apply Hdiv. lia.
  - intros drv Ho. rewrite (trace_complete drv Ho).
    rewrite bindCalls_complete, allocationSizes_complete, main_layout.
    split; reflexivity.
Qed.

Lemma planAllocation_sequential_witness :
  Forall (fun r => 0 <= size r) (requirementsUsed nominal_driver) /\
  sumSizes (requirementsUsed nominal_driver) < 2 ^ 64 /\
  non_overlapping (fst (planAllocation (requirementsUsed nominal_driver))) /\
  snd (planAllocation (requirementsUsed nominal_driver)) = 12288.
Proof.
  assert (H1 : Forall (fun r => 0 <= size r) (requirementsUsed nominal_driver))
    by (repeat constructor; cbn; lia).
  assert (H2 : sumSizes (requirementsUsed nominal_driver) < 2 ^ 64)
    by (vm_compute; reflexivity).
  split; [exact H1|]. split; [exact H2|].
  destruct (planAllocation_sequential (requirementsUsed nominal_driver) H1 H2)
    as (_ & _ & _ & _ & Hno & Htotal & _).
  split; [exact Hno|]. rewrite Htotal. reflexivity.
Defined.

(** C2 as stated fails: when the driver reports a size that is not a
    multiple of the alignment (4100 bytes, aligned to 16), the code places
    the second buffer at 4100 where the rounded layout has 4112, and 4100 is
    not a multiple of 16. *)
Lemma layout_not_as_specified :
  ~ layout_as_specified (requirementsUsed unaligned_driver).
Proof.
  unfold layout_as_specified. intros (Hoff & _). vm_compute in Hoff.
  discriminate.
Qed.

(** The run behind the counterexample: [main] binds at 0, 4100 and 8200 and
    allocates 12300 bytes. *)
Lemma unaligned_driver_run :
  outcome unaligned_driver = Some (Return 0) /\
  bindCalls (trace unaligned_driver)
  = [(bufferA, 0); (bufferB, 4100); (bufferResult, 8200)] /\
  allocationSizes (trace unaligned_driver) = [12300] /\
  ~ (16 | 4100).
Proof.
  split; [vm_compute; reflexivity|].
  split; [vm_compute; reflexivity|].
  split; [vm_compute; reflexivity|].
  intros [k Hk]. lia.
Qed.

(** ** All three requirement queries name bufferA *)

Lemma layout_calls_complete drv :
  0 <= size (getBufferMemoryRequirements drv bufferA) < 2 ^ 64 ->
  Forall (layout_call_from_bufferA drv) (completeTrace drv).
Proof.
  intros Ha. unfold completeTrace, setupCalls, batchCalls.
  rewrite !Forall_app. repeat split.
  - repeat constructor.
  - eapply Forall_impl; [|apply selectionCalls_queries].
    intros c Hc. destruct c; try contradiction. exact I.
  - rewrite (bindOffsets_2 drv Ha), requiredMemorySizeOf_3.
    repeat constructor.
  - repeat constructor.
  - eapply Forall_impl; [|apply verifyLoop_prints].
    intros c Hc. destruct c; try contradiction. exact I.
  - repeat constructor.
Qed.

(** C10: every vkGetBufferMemoryRequirements call of [main] names bufferA.
    Hence, in every run, whatever the driver would answer for bufferB and
    bufferResult: an allocation asks for three times bufferA's required size
    (in VkDeviceSize arithmetic, so exactly three times that size whenever
    the product fits in 64 bits), and the buffers are bound at 0, at that
    size and at twice that size.  A run that returns 0 makes exactly these
    three queries, this allocation and these three binds; and replacing the
    requirements of bufferB and bufferResult changes nothing in the run. *)
Theorem layout_from_bufferA_only drv :
  let a := size (getBufferMemoryRequirements drv bufferA) in
  0 <= a < 2 ^ 64 ->
  Forall (layout_call_from_bufferA drv) (trace drv) /\
  (outcome drv = Some (Return 0) ->
   queriedBuffers (trace drv) = [bufferA; bufferA; bufferA] /\
   allocationSizes (trace drv) = [uint64 (3 * a)] /\
   bindCalls (trace drv)
   = [(bufferA, 0); (bufferB, a); (bufferResult, uint64 (2 * a))]) /\
  (3 * a < 2 ^ 64 -> uint64 (3 * a) = 3 * a /\ uint64 (2 * a) = 2 * a) /\
  (forall reqB reqResult, run (with_requirements drv reqB reqResult) = run drv).
Proof.
  intros a Ha. split; [|split; [|split]].
  - apply (Forall_prefix _ _ _ (trace_prefix drv)).
    apply layout_calls_complete. exact Ha.
  - intros Ho. rewrite (trace_complete drv Ho).
    rewrite queriedBuffers_complete, allocationSizes_complete,
      bindCalls_complete, requiredMemorySizeOf_3, (bindOffsets_2 drv Ha).
    repeat split; reflexivity.
  - intros H3. split; apply uint64_small; lia.
  - intros reqB reqResult. reflexivity.
Qed.

Lemma layout_from_bufferA_only_witness :
  Forall (layout_call_from_bufferA nominal_driver) (trace nominal_driver) /\
  queriedBuffers (trace nominal_driver) = [bufferA; bufferA; bufferA] /\
  allocationSizes (trace nominal_driver) = [3 * 4096] /\
  bindCalls (trace nominal_driver)
  = [(bufferA, 0); (bufferB, 4096); (bufferResult, 2 * 4096)].
Proof.
  assert (Ha : 0 <= size (getBufferMemoryRequirements nominal_driver bufferA)
               < 2 ^ 64) by (cbn; lia).
  destruct (layout_from_bufferA_only nominal_driver Ha) as (H1 & H2 & _ & _).
  split; [exact H1|].
  apply H2. vm_compute. reflexivity.
Defined.

(** ** Host mapping against device execution *)

Lemma mapping_exclusive_sync mapped in_flight tr :
  mapping_exclusive mapped in_flight tr
  = mapping_exclusive mapped in_flight (syncCalls tr).
Proof.
  revert mapped in_flight. induction tr as [|c tr IH]; intros mapped in_flight.
  - reflexivity.
  - destruct c; cbn [mapping_exclusive syncCalls flat_map app];
      fold (syncCalls tr); rewrite ?IH; reflexivity.
Qed.

Lemma flat_map_prefix {X Y} (f : X -> list Y) (l1 l2 : list X) :
  l1 `prefix_of` l2 -> flat_map f l1 `prefix_of` flat_map f l2.
Proof. intros [k ->]. rewrite flat_map_app. apply prefix_app_r. reflexivity. Qed.

Lemma syncCalls_complete drv :
  syncCalls (completeTrace drv)
  = [vkMapMemory; vkUnmapMemory; vkQueueSubmit; vkQueueWaitIdle;
     vkMapMemory; vkUnmapMemory].
Proof.
  unfold syncCalls. rewrite flat_map_completeTrace by reflexivity.
  reflexivity.
Qed.

(** C8: in every run the map, unmap, submit and wait-idle calls come as a
    prefix of: map, unmap, submit, wait idle, map, unmap.  So the block is
    never mapped while the batch is in flight; and a run that returns 0 has
    exactly two mapping windows, the first closed before the submission and
    the second opened only after vkQueueWaitIdle has returned. *)
Theorem mapping_excludes_execution drv :
  syncCalls (trace drv)
    `prefix_of` [vkMapMemory; vkUnmapMemory; vkQueueSubmit; vkQueueWaitIdle;
                 vkMapMemory; vkUnmapMemory] /\
  mapping_exclusive false false (trace drv) = true /\
  (outcome drv = Some (Return 0) ->
   syncCalls (trace drv)
   = [vkMapMemory; vkUnmapMemory; vkQueueSubmit; vkQueueWaitIdle;
      vkMapMemory; vkUnmapMemory]).
Proof.
  assert (Hpre : syncCalls (trace drv)
            `prefix_of` [vkMapMemory; vkUnmapMemory; vkQueueSubmit;
                         vkQueueWaitIdle; vkMapMemory; vkUnmapMemory]).
  { rewrite <- (syncCalls_complete drv).
    apply flat_map_prefix, trace_prefix. }
  split; [exact Hpre|]. split.
  - rewrite mapping_exclusive_sync.
    destruct Hpre as [k Hk]. revert Hk.
    generalize (syncCalls (trace drv)). intros l Hk.
    do 6 (destruct l as [|? l];
          [reflexivity | cbn [app] in Hk; injection Hk as <- Hk]).
    destruct l; [reflexivity | discriminate].
  - intros Ho. rewrite (trace_complete drv Ho). apply syncCalls_complete.
Qed.

Lemma mapping_excludes_execution_witness :
  syncCalls (trace nominal_driver)
  = [vkMapMemory; vkUnmapMemory; vkQueueSubmit; vkQueueWaitIdle;
     vkMapMemory; vkUnmapMemory].
Proof.
  apply (mapping_excludes_execution nominal_driver).
  vm_compute. reflexivity.
Defined.

(** ** Teardown *)

Lemma forallb_teardown_app l c t :
  is_teardown_call c = false ->
  forallb is_teardown_call (l ++ c :: t) = false.
Proof.
  intros Hc. rewrite forallb_app. cbn [forallb]. rewrite Hc.
  cbn [andb]. apply andb_false_r.
Qed.

(** The teardown is what follows the last call that releases nothing. *)
Lemma teardownCalls_app l c t :
  is_teardown_call c = false ->
  forallb is_teardown_call t = true ->
  teardownCalls (l ++ c :: t) = t.
Proof.
  intros Hc Ht. induction l as [|x l IH].
  - cbn [app teardownCalls forallb]. rewrite Hc. cbn [andb].
    destruct t as [|y t]; [reflexivity|].
    cbn [teardownCalls]. rewrite Ht. reflexivity.
  - change ((x :: l) ++ c :: t) with (x :: (l ++ c :: t)).
    cbn [teardownCalls]. cbn [forallb].
    rewrite (forallb_teardown_app l c t Hc), andb_false_r. exact IH.
Qed.

Lemma teardownCalls_complete drv :
  teardownCalls (completeTrace drv)
  = [vkDestroyCommandPool; vkFreeMemory; vkDestroyBuffer bufferResult;
     vkDestroyBuffer bufferB; vkDestroyBuffer bufferA;
     vkDestroyDescriptorPool; vkDestroyPipeline; vkDestroyPipelineLayout;
     vkDestroyDescriptorSetLayout; vkDestroyDevice; vkDestroyInstance;
     printf_success].
Proof.
  unfold completeTrace, batchCalls.
  change ([vkUnmapMemory; vkDestroyCommandPool; vkFreeMemory;
           vkDestroyBuffer bufferResult; vkDestroyBuffer bufferB;
           vkDestroyBuffer bufferA; vkDestroyDescriptorPool; vkDestroyPipeline;
           vkDestroyPipelineLayout; vkDestroyDescriptorSetLayout;
           vkDestroyDevice; vkDestroyInstance; printf_success])
    with ([] ++ vkUnmapMemory ::
          [vkDestroyCommandPool; vkFreeMemory;
           vkDestroyBuffer bufferResult; vkDestroyBuffer bufferB;
           vkDestroyBuffer bufferA; vkDestroyDescriptorPool; vkDestroyPipeline;
           vkDestroyPipelineLayout; vkDestroyDescriptorSetLayout;
           vkDestroyDevice; vkDestroyInstance; printf_success]).
  rewrite !app_assoc.
  apply teardownCalls_app; reflexivity.
Qed.

Lemma creationOrder_complete drv :
  creationOrder (completeTrace drv)
  = [o_instance; o_device; o_setLayout; o_pipelineLayout; o_shaderModule;
     o_pipeline; o_buffer bufferA; o_buffer bufferB; o_buffer bufferResult;
     o_memory; o_descriptorPool; o_descriptorSet; o_commandPool;
     o_commandBuffer].
Proof.
  unfold creationOrder. rewrite flat_map_completeTrace by reflexivity.
  reflexivity.
Qed.

Lemma destructionOrder_complete drv :
  destructionOrder (completeTrace drv)
  = [o_shaderModule; o_commandPool; o_memory; o_buffer bufferResult;
     o_buffer bufferB; o_buffer bufferA; o_descriptorPool; o_pipeline;
     o_pipelineLayout; o_setLayout; o_device; o_instance].
Proof.
  unfold destructionOrder. rewrite flat_map_completeTrace by reflexivity.
  reflexivity.
Qed.

(** C6, as the code has it: a run that returns 0 ends by releasing the
    command pool, the device memory, the three buffers (last created first),
    the descriptor pool, the pipeline, the pipeline layout, the descriptor
    set layout, the device and the instance, in this order.  With the shader
    module destroyed right after pipeline creation, and descriptor set and
    command buffer going with their pools, every created object is
    released.  Leaving the descriptor pool aside, the teardown runs in the
    reverse of the creation order; the device memory, allocated after the
    buffers, is therefore freed before each of the buffers bound into it is
    destroyed. *)
Theorem teardown_order drv :
  outcome drv = Some (Return 0) ->
  released (trace drv)
  = [o_commandPool; o_memory; o_buffer bufferResult; o_buffer bufferB;
     o_buffer bufferA; o_descriptorPool; o_pipeline; o_pipelineLayout;
     o_setLayout; o_device; o_instance] /\
  releases_all (trace drv) /\
  reverse_creation_order
    (fun o => negb (bool_decide (o = o_descriptorPool))) (trace drv) /\
  forall b, released_before o_memory (o_buffer b) (released (trace drv)).
Proof.
  intros Ho. rewrite (trace_complete drv Ho).
  assert (Hrel : released (completeTrace drv)
            = [o_commandPool; o_memory; o_buffer bufferResult;
               o_buffer bufferB; o_buffer bufferA; o_descriptorPool;
               o_pipeline; o_pipelineLayout; o_setLayout; o_device;
               o_instance]).
  { unfold released. rewrite teardownCalls_complete. reflexivity. }
  split; [exact Hrel|]. split; [|split].
  - unfold releases_all.
    rewrite creationOrder_complete, destructionOrder_complete.
    intros o Hin. cbn [In] in Hin.
    repeat (destruct Hin as [<- | Hin]; [cbn; tauto|]). contradiction.
  - unfold reverse_creation_order.
    rewrite Hrel, creationOrder_complete. vm_compute. reflexivity.
  - intros b. rewrite Hrel. exists 1%nat. split; [reflexivity|].
    intros j Hj. destruct b; vm_compute in Hj; injection Hj as <-; lia.
Qed.

Lemma teardown_order_witness :
  released (trace nominal_driver)
  = [o_commandPool; o_memory; o_buffer bufferResult; o_buffer bufferB;
     o_buffer bufferA; o_descriptorPool; o_pipeline; o_pipelineLayout;
     o_setLayout; o_device; o_instance] /\
  releases_all (trace nominal_driver) /\
  reverse_creation_order
    (fun o => negb (bool_decide (o = o_descriptorPool)))
    (trace nominal_driver) /\
  forall b,
    released_before o_memory (o_buffer b) (released (trace nominal_driver)).
Proof.
  apply (teardown_order nominal_driver).
  vm_compute. reflexivity.
Defined.

(** C6 as stated fails on a run that returns 0: the device memory is freed
    before the buffers bound into it are destroyed. *)
Lemma teardown_not_as_specified :
  ~ teardown_as_specified (trace nominal_driver).
Proof.
  intros (_ & _ & Hmem).
  destruct (Hmem bufferA) as (i & Hi & Hlt).
  assert (Hrel : released (trace nominal_driver)
            = [o_commandPool; o_memory; o_buffer bufferResult;
               o_buffer bufferB; o_buffer bufferA; o_descriptorPool;
               o_pipeline; o_pipelineLayout; o_setLayout; o_device;
               o_instance]) by (vm_compute; reflexivity).
  rewrite Hrel in Hi, Hlt.
  vm_compute in Hi. injection Hi as <-.
  specialize (Hlt 1%nat eq_refl). lia.
Qed.

(** Nor is the order the strict reverse of the creation order: the
    descriptor pool is created after the device memory and destroyed after
    the buffers. *)
Lemma teardown_not_strictly_reversed :
  ~ reverse_creation_order (fun _ => true) (trace nominal_driver).
Proof.
  unfold reverse_creation_order.
  assert (Hrel : released (trace nominal_driver)
            = [o_commandPool; o_memory; o_buffer bufferResult;
               o_buffer bufferB; o_buffer bufferA; o_descriptorPool;
               o_pipeline; o_pipelineLayout; o_setLayout; o_device;
               o_instance]) by (vm_compute; reflexivity).
  assert (Hcre : creationOrder (trace nominal_driver)
            = [o_instance; o_device; o_setLayout; o_pipelineLayout;
               o_shaderModule; o_pipeline; o_buffer bufferA; o_buffer bufferB;
               o_buffer bufferResult; o_memory; o_descriptorPool;
               o_descriptorSet; o_commandPool; o_commandBuffer])
    by (vm_compute; reflexivity).
  rewrite Hrel, Hcre. intros H. vm_compute in H. discriminate.
Qed.

(** The teardown of triangle.cpp is not in reverse creation order either
    (the pipeline, created after both layouts and the render pass, is
    destroyed after them), and it never releases the two vertex buffers,
    their memory, the image objects or the framebuffer. *)
Lemma triangle_teardown :
  Triangle.torn_down
  <> rev (List.filter (fun o => bool_decide (o ∈ Triangle.torn_down))
                      Triangle.created) /\
  Forall (fun o => o ∈ Triangle.created /\ o ∉ Triangle.torn_down)
    [Triangle.t_vertexPositions; Triangle.t_vertexColors;
     Triangle.t_bufferMemory; Triangle.t_depthStencil;
     Triangle.t_depthStencilView; Triangle.t_imageMemory;
     Triangle.t_framebuffer].
Proof.
  split; [vm_compute; discriminate|].
  apply (bool_decide_unpack _). vm_compute. reflexivity.
Qed.

(** A failing run returns at once, releasing nothing of what it created. *)
Lemma failed_allocation_releases_nothing :
  outcome out_of_memory_driver = Some (Return VK_ERROR_OUT_OF_DEVICE_MEMORY) /\
  released (trace out_of_memory_driver) = [] /\
  creationOrder (trace out_of_memory_driver)
  = [o_instance; o_device; o_setLayout; o_pipelineLayout; o_shaderModule;
     o_pipeline; o_buffer bufferA; o_buffer bufferB; o_buffer bufferResult;
     o_memory] /\
  destructionOrder (trace out_of_memory_driver) = [o_shaderModule].
Proof. vm_compute. repeat split; reflexivity. Qed.

(** ** Descriptor slots *)



Lemma call_bind {B} c (k : unit -> Prog B) m :
  bind (call c) k m
  = mkStep (c :: calls (k tt m)) (mem (k tt m)) (next (k tt m)).
Proof. reflexivity. Qed.







(** ** Descriptor pool sizing *)






Lemma allocateSet_undersized maxSets sizes bindings b :
  In b bindings ->
  poolCapacity (descriptorType b) sizes
  < descriptorsNeeded (descriptorType b) bindings ->
  allocateSet maxSets sizes bindings = false.
Proof.
  intros Hin Hlt. unfold allocateSet. apply andb_false_iff. right.
  apply not_true_is_false. intros Hall.
  rewrite forallb_forall in Hall. specialize (Hall b Hin).
  apply Z.leb_le in Hall. lia.
Qed.




Lemma example_teardown_cases m :
  cases (ExampleCpp.teardown m)
    [vkDestroyPipeline; vkDestroyPipelineLayout;
     vkDestroyDescriptorSetLayout; vkDestroyDevice; vkDestroyInstance]
    m (inl (Return 0)) False.
Proof.
  unfold ExampleCpp.teardown.
  eapply cases_eq; [repeat step_cases | reflexivity | reflexivity | tauto].
Qed.

Lemma example_run_cases drv :
  cases (ExampleCpp.run drv) (ExampleCpp.completeTrace drv)
    (initialMemory drv) (inl (Return 0))
    (failed drv ExampleCpp.testedSites).
Proof.
  unfold ExampleCpp.run, ExampleCpp.main.
  eapply cases_eq.
  - eapply bind_cases; [apply createContext_cases|].
    eapply bind_cases; [apply createPipeline_cases|].
    apply example_teardown_cases.
  - unfold ExampleCpp.completeTrace, selectionCalls.
    rewrite <- !app_assoc. reflexivity.
  - reflexivity.
  - unfold ExampleCpp.testedSites. blame.
Qed.




(** In example.cpp the layout is created with the literal count 2 from an
    array of three bindings: slot 2 is declared but not in the layout. *)
Lemma example_layout_literal_count :
  length Example.layoutBindings = 3%nat /\
  map binding Example.layoutCreated = [0; 1].
Proof. split; reflexivity. Qed.

(** ** loadShaderCode *)

(** The loop appends everything that is left in the stream. *)
Lemma readLoop_all fp shaderCode : readLoop fp shaderCode = shaderCode ++ fp.
Proof.
  funelim (readLoop fp shaderCode).
  - destruct fp as [|c fp]; [|discriminate].
    rewrite app_nil_r. reflexivity.
  - match goal with
    | IH : readLoop _ _ = (_ ++ _) ++ _ |- _ => rewrite IH
    end.
    rewrite <- app_assoc, take_drop. reflexivity.
Qed.

(** X1: [loadShaderCode] returns exactly the bytes of the file, whatever its
    length and content, and the empty vector when the file cannot be
    opened. *)
Theorem loadShaderCode_whole_file fs filename :
  loadShaderCode fs filename = default [] (fs filename).
Proof.
  unfold loadShaderCode. destruct (fs filename) as [fp|]; [|reflexivity].
  rewrite readLoop_all. reflexivity.
Qed.

(** ** The exit code of [main] *)

Lemma firstFailure_app drv l1 l2 :
  firstFailure drv (l1 ++ l2) =
  match firstFailure drv l1 with
  | Some e => Some e
  | None => firstFailure drv l2
  end.
Proof.
  induction l1 as [|s l1 IH]; [reflexivity|].
  cbn [app firstFailure]. destruct (result drv s =? 0); [exact IH | reflexivity].
Qed.

Lemma after_sites_app {A} drv l1 l2 (r : Outcome + A) :
  after_sites drv (l1 ++ l2) r = after_sites drv l1 (after_sites drv l2 r).
Proof.
  unfold after_sites. rewrite firstFailure_app.
  destruct (firstFailure drv l1); reflexivity.
Qed.

Section Ends.
Context {A B : Type} (drv : Driver).

Lemma next_bind (p : Prog A) (f : A -> Prog B) m :
  next (bind p f m) =
  match next (p m) with
  | inl o => inl o
  | inr a => next (f a (mem (p m)))
  end.
Proof. unfold bind. destruct (next (p m)); reflexivity. Qed.

(** Sequencing: the sites of the first part come before those of the
    second. *)
Lemma bind_ends (p : Prog A) (f : A -> Prog B) sites1 v sites2 r :
  (forall m, next (p m) = after_sites drv sites1 (inr v)) ->
  (forall m, next (f v m) = after_sites drv sites2 r) ->
  forall m, next (bind p f m) = after_sites drv (sites1 ++ sites2) r.
Proof.
  intros Hp Hf m. rewrite next_bind, Hp, after_sites_app.
  unfold after_sites at 1 2.
  destruct (firstFailure drv sites1); [reflexivity|]. apply Hf.
Qed.

Lemma ret_ends (v : A) m : next (ret v m) = after_sites drv [] (inr v).
Proof. reflexivity. Qed.
End Ends.

Lemma call_ends drv c m : next (call c m) = after_sites drv [] (inr tt).
Proof. reflexivity. Qed.

Lemma vk_ends drv c s m : next (vk drv c s m) = after_sites drv [s] (inr tt).
Proof.
  rewrite vk_run. unfold after_sites. cbn [firstFailure].
  destruct (result drv s =? 0); reflexivity.
Qed.

Lemma createContext_ends drv m :
  next (createContext drv m)
  = after_sites drv [atCreateInstance; atEnumerateCount; atEnumerateDevices;
                     atCreateDevice] (inr (selected drv)).
Proof.
  revert m. unfold createContext.
  eapply (bind_ends drv _ _ [_]); [intros; apply vk_ends|].
  eapply (bind_ends drv _ _ [_]); [intros; apply vk_ends|].
  eapply (bind_ends drv _ _ [_] _ [_]); [intros; apply vk_ends|].
  intros m. rewrite next_bind, selectDeviceProg_step. cbn [next mem].
  revert m. fold (selected drv).
  eapply (bind_ends drv _ _ [_] _ []); [intros; apply vk_ends|].
  eapply (bind_ends drv _ _ [] _ []); [intros; apply call_ends|].
  intros; apply ret_ends.
Qed.

Ltac phase_ends :=
  repeat first
    [ intros; apply vk_ends
    | intros; apply call_ends
    | intros; apply ret_ends
    | eapply (bind_ends _ _ _ [_]); [intros; apply vk_ends|]
    | eapply (bind_ends _ _ _ []); [intros; apply call_ends|] ].

Lemma createPipeline_ends drv lb m :
  next (createPipeline drv lb m)
  = after_sites drv [atCreateDescriptorSetLayout; atCreateComputePipelines]
      (inr tt).
Proof. revert m. unfold createPipeline. phase_ends. Qed.

Lemma createBuffers_ends drv m :
  next (createBuffers drv m)
  = after_sites drv [atCreateBuffer bufferA; atCreateBuffer bufferB;
                     atCreateBuffer bufferResult] (inr tt).
Proof. revert m. unfold createBuffers. cbv zeta. phase_ends. Qed.

Lemma allocateAndBind_ends drv m :
  next (allocateAndBind drv (fst (selected drv)) m)
  = if memoryTypeIndexOf drv <? 0 then inl (Return (-43))
    else after_sites drv [atAllocateMemory; atBindBufferMemory bufferA;
                          atBindBufferMemory bufferB;
                          atBindBufferMemory bufferResult]
           (inr (bindOffsets drv)).
Proof.
  unfold allocateAndBind. cbv zeta.
  do 4 (rewrite call_bind; cbn [next]).
  fold HOST_VISIBLE_COHERENT. fold (memoryTypeIndexOf drv).
  destruct (Z.ltb_spec (memoryTypeIndexOf drv) 0) as [Hlt|Hge].
  - assert (E : (0 >? memoryTypeIndexOf drv) = true) by lia.
    rewrite E. reflexivity.
  - assert (E : (0 >? memoryTypeIndexOf drv) = false) by lia.
    rewrite E. revert m. phase_ends.
Qed.

Lemma createDescriptorSet_ends drv lb m :
  next (createDescriptorSet drv lb m)
  = after_sites drv [atAllocateDescriptorSets] (inr tt).
Proof. revert m. unfold createDescriptorSet. phase_ends. Qed.

Lemma updateAndRecord_ends drv writes q m :
  next (updateAndRecord drv writes q m)
  = after_sites drv [atCreateCommandPool; atAllocateCommandBuffers;
                     atEndCommandBuffer] (inr tt).
Proof. revert m. unfold updateAndRecord. phase_ends. Qed.

Lemma executeBatch_ends drv offsets m :
  next (executeBatch drv offsets m)
  = after_sites drv [atMapMemoryWrite]
      (if result drv atMapMemoryRead =? 0 then inl (Return 0) else inl Crash).
Proof.
  unfold executeBatch. rewrite next_bind.
  assert (Hw : next (writeInputs drv m)
               = after_sites drv [atMapMemoryWrite] (inr tt)).
  { revert m. unfold writeInputs. cbv zeta.
    eapply (bind_ends _ _ _ [_] _ []); [intros; apply vk_ends|].
    eapply (bind_ends _ _ _ [] _ []); [reflexivity|].
    intros; apply call_ends. }
  rewrite Hw. unfold after_sites. cbn [firstFailure].
  destruct (result drv atMapMemoryWrite =? 0); [|reflexivity].
  rewrite next_bind.
  assert (Hs : forall m', next (submitAndWait drv offsets m') = inr tt).
  { intros m'. unfold submitAndWait, bind.
    destruct (result drv atQueueSubmit =? 0); reflexivity. }
  rewrite Hs, next_bind. unfold readBack. cbv zeta.
  rewrite call_bind. cbn [next].
  destruct (result drv atMapMemoryRead =? 0); [|reflexivity].
  reflexivity.
Qed.

Lemma bind_then {A B} drv (p : Prog A) (f : A -> Prog B) sites v R m :
  (forall m, next (p m) = after_sites drv sites (inr v)) ->
  (forall m, next (f v m) = R) ->
  next (bind p f m) = after_sites drv sites R.
Proof.
  intros Hp Hf. rewrite next_bind, Hp. unfold after_sites.
  destruct (firstFailure drv sites); [reflexivity | apply Hf].
Qed.

Lemma setup_ends drv m :
  next (setup drv m)
  = after_sites drv sitesBeforeMemoryType
      (if memoryTypeIndexOf drv <? 0 then inl (Return (-43))
       else after_sites drv
              [atAllocateMemory; atBindBufferMemory bufferA;
               atBindBufferMemory bufferB; atBindBufferMemory bufferResult;
               atAllocateDescriptorSets; atCreateCommandPool;
               atAllocateCommandBuffers; atEndCommandBuffer]
              (inr (bindOffsets drv))).
Proof.
  change sitesBeforeMemoryType
    with ([atCreateInstance; atEnumerateCount; atEnumerateDevices;
           atCreateDevice]
          ++ [atCreateDescriptorSetLayout; atCreateComputePipelines]
          ++ [atCreateBuffer bufferA; atCreateBuffer bufferB;
              atCreateBuffer bufferResult]).
  change [atAllocateMemory; atBindBufferMemory bufferA;
          atBindBufferMemory bufferB; atBindBufferMemory bufferResult;
          atAllocateDescriptorSets; atCreateCommandPool;
          atAllocateCommandBuffers; atEndCommandBuffer]
    with ([atAllocateMemory; atBindBufferMemory bufferA;
           atBindBufferMemory bufferB; atBindBufferMemory bufferResult]
          ++ [atAllocateDescriptorSets]
          ++ [atCreateCommandPool; atAllocateCommandBuffers;
              atEndCommandBuffer]).
  rewrite !after_sites_app. unfold setup. revert m.
  intros m. eapply bind_then; [intros; apply createContext_ends|]. clear m.
  intros m. eapply bind_then; [intros; apply createPipeline_ends|]. clear m.
  intros m. eapply bind_then; [intros; apply createBuffers_ends|]. clear m.
  intros m. destruct (memoryTypeIndexOf drv <? 0) eqn:Hidx.
  { rewrite next_bind, allocateAndBind_ends, Hidx. reflexivity. }
  eapply bind_then.
  { intros. rewrite allocateAndBind_ends, Hidx. reflexivity. }
  clear m. intros m.
  eapply bind_then; [intros; apply createDescriptorSet_ends|].
  intros m'. eapply bind_then; [intros; apply updateAndRecord_ends|].
  reflexivity.
Qed.

(** X2: how [main] ends is decided by the driver's answers alone: it
    returns the result code of the first tested call that fails, in program
    order; -43 when all calls up to the memory type lookup succeed and no
    memory type is found; it stops abnormally when only the second,
    untested vkMapMemory fails; and it returns 0 otherwise. *)
Theorem outcome_is_first_failure drv : outcome drv = Some (exitOf drv).
Proof.
  unfold outcome, run, main. rewrite next_bind, setup_ends.
  unfold exitOf, after_sites at 1.
  destruct (firstFailure drv sitesBeforeMemoryType); [reflexivity|].
  destruct (memoryTypeIndexOf drv <? 0); [reflexivity|].
  change sitesAfterMemoryType
    with ([atAllocateMemory; atBindBufferMemory bufferA;
           atBindBufferMemory bufferB; atBindBufferMemory bufferResult;
           atAllocateDescriptorSets; atCreateCommandPool;
           atAllocateCommandBuffers; atEndCommandBuffer]
          ++ [atMapMemoryWrite]).
  rewrite firstFailure_app. unfold after_sites at 1.
  destruct (firstFailure drv _); [reflexivity|].
  rewrite executeBatch_ends. unfold after_sites.
  destruct (firstFailure drv [atMapMemoryWrite]); [reflexivity|].
  destruct (result drv atMapMemoryRead =? 0); reflexivity.
Qed.

(** A status code that is not an error ends the program just the same. *)
Lemma incomplete_enumeration_ends_main :
  outcome incomplete_enumeration_driver = Some (Return VK_INCOMPLETE).
Proof. vm_compute. reflexivity. Qed.

(** ** The memory type lookup, when a type qualifies *)

(** X3: whenever some index below [memoryTypeCount] is allowed by the type
    bits and has exactly the requested flags, the lookup does not return -1:
    it returns the least such index. *)
Theorem findMemoryType_least bits p req i :
  wf_memory_properties p ->
  0 <= i < memoryTypeCount p ->
  exact_match bits p req i ->
  let r := findMemoryTypeFromProperties bits p req in
  0 <= r <= i /\ exact_match bits p req r /\
  forall j, 0 <= j < r -> ~ exact_match bits p req j.
Proof.
  intros Hwf Hi Hm. cbn zeta.
  destruct (findMemoryTypeFromProperties_spec bits p req Hwf)
    as [[_ Hnone] | (Hr & Hex & Hleast)].
  - exfalso. exact (Hnone i Hi Hm).
  - split; [|split; assumption]. split; [lia|].
    destruct (Z_le_gt_dec (findMemoryTypeFromProperties bits p req) i)
      as [Hle|Hgt]; [exact Hle|].
    exfalso. apply (Hleast i); [lia | exact Hm].
Qed.

Lemma findMemoryType_least_witness :
  findMemoryTypeFromProperties 7 (memoryTypeTable [1; 6; 6]) 6 = 1 /\
  let r := findMemoryTypeFromProperties 7 (memoryTypeTable [1; 6; 6]) 6 in
  0 <= r <= 2 /\ exact_match 7 (memoryTypeTable [1; 6; 6]) 6 r /\
  forall j, 0 <= j < r -> ~ exact_match 7 (memoryTypeTable [1; 6; 6]) 6 j.
Proof.
  split; [reflexivity|].
  apply (findMemoryType_least 7 (memoryTypeTable [1; 6; 6]) 6 2).
  - split; [vm_compute; split; discriminate | reflexivity].
  - vm_compute. split; [discriminate | reflexivity].
  - split; reflexivity.
Defined.

(** What the verification loop prints: one line per index whose result
    word differs from the 32-bit sum of the two input words, with the values
    it compared. *)
Lemma verifyLoop_In n index a b r m c :
  0 <= index -> index + Z.of_nat n <= 2 ^ 32 ->
  In c (verifyLoop n index a b r m) <->
  exists j, index <= j < index + Z.of_nat n /\
            m (r + j) <> int32 (m (a + j) + m (b + j)) /\
            c = fprintf_stderr j (m (r + j)) (int32 (m (a + j) + m (b + j))).
Proof.
  revert index. induction n as [|n IH]; intros index H0 Hle.
  - cbn [verifyLoop In]. split; [tauto|]. intros (j & Hj & _). lia.
  - cbn [verifyLoop]. rewrite in_app_iff.
    assert (Hhead :
      In c (if m (r + index) =? int32 (m (a + index) + m (b + index))
            then []
            else [fprintf_stderr index (m (r + index))
                    (int32 (m (a + index) + m (b + index)))])
      <-> m (r + index) <> int32 (m (a + index) + m (b + index)) /\
          c = fprintf_stderr index (m (r + index))
                (int32 (m (a + index) + m (b + index)))).
    { destruct (Z.eqb_spec (m (r + index))
                  (int32 (m (a + index) + m (b + index)))) as [E|E];
        cbn [In].
      - split; [intros [] | intros [Hne _]; exact (Hne E)].
      - split.
        + intros [<- | []]. split; [exact E | reflexivity].
        + intros [_ ->]. left. reflexivity. }
    rewrite Hhead. clear Hhead.
    destruct (Z.eq_dec (index + 1) (2 ^ 32)) as [E|E].
    + assert (n = 0%nat) as -> by lia. cbn [verifyLoop In]. split.
      * intros [[Hne ->] | []]. exists index. split; [lia|]. split; [exact Hne | reflexivity].
      * intros (j & Hj & Hne & ->). left.
        assert (j = index) as -> by lia. split; [exact Hne | reflexivity].
    + rewrite uint32_small by lia. rewrite IH by lia. split.
      * intros [[Hne ->] | (j & Hj & Hne & ->)].
        -- exists index. split; [lia|]. split; [exact Hne | reflexivity].
        -- exists j. split; [lia|]. split; [exact Hne | reflexivity].
      * intros (j & Hj & Hne & ->).
        destruct (Z.eq_dec j index) as [->|Hji].
        -- left. split; [exact Hne | reflexivity].
        -- right. exists j. split; [lia|]. split; [exact Hne | reflexivity].
Qed.

Lemma In_bind {A B} (p : Prog A) (f : A -> Prog B) m c :
  In c (calls (bind p f m)) ->
  In c (calls (p m)) \/
  exists v, next (p m) = inr v /\ In c (calls (f v (mem (p m)))).
Proof.
  unfold bind. destruct (next (p m)) as [o|v]; cbn [calls].
  - tauto.
  - rewrite in_app_iff. intros [H|H]; [tauto|]. right. exists v. tauto.
Qed.

Lemma cases_In {A} (s : Step A) full m r blame c :
  cases s full m r blame -> In c (calls s) -> In c full.
Proof.
  intros [[_ ->] | [[k ->] _]]; cbn [calls]; [tauto|].
  rewrite in_app_iff. tauto.
Qed.

Lemma query_not_report c : is_query c -> ~ is_report c.
Proof. destruct c; cbn; tauto. Qed.

(** The only place of a complete trace that prints a mismatch is the
    verification loop. *)
Lemma report_in_completeTrace drv c :
  is_report c -> In c (completeTrace drv) <-> In c (mismatchReports drv).
Proof.
  intros Hc. unfold completeTrace, setupCalls, batchCalls.
  rewrite !in_app_iff. cbn [In].
  assert (Hsel : ~ In c (selectionCalls drv)).
  { intros Hin.
    pose proof (selectionCalls_queries VK_QUEUE_COMPUTE_BIT
                  (physicalDevices drv) VK_NULL_HANDLE 0 (initialMemory drv))
      as Hq.
    rewrite Forall_forall in Hq. exact (query_not_report c (Hq c Hin) Hc). }
  split; [|tauto].
  intros H. decompose [or] H; try tauto; subst c; contradiction Hc.
Qed.

Lemma mismatchReports_In drv i g e :
  In (fprintf_stderr i g e) (mismatchReports drv) <->
  0 <= i < elements /\
  g = executedMemory drv (2 * elements + i) /\
  e = int32 (executedMemory drv i + executedMemory drv (elements + i)) /\
  g <> e.
Proof.
  unfold mismatchReports, elements.
  rewrite verifyLoop_In by (cbn; lia).
  change (Z.of_nat (Z.to_nat 1024)) with 1024.
  change (0 + (0 + 1024 + 1024)) with 2048.
  change (0 + (0 + 1024)) with 1024.
  split.
  - intros (j & Hj & Hne & E). injection E as -> -> ->.
    replace (2 * 1024 + j) with (2048 + j) by lia.
    replace (0 + j) with j in * by lia.
    repeat split; first [lia | assumption | reflexivity].
  - intros (Hi & -> & -> & Hne). exists i.
    replace (2 * 1024 + i) with (2048 + i) in * by lia.
    replace (0 + i) with i by lia.
    repeat split; first [lia | assumption | reflexivity].
Qed.


(** X6: the result of vkQueueSubmit is never read.  When the driver rejects
    the batch and every tested call succeeds, [main] still returns 0 and
    prints "success"; the block is left as the host wrote it, and the run
    reports index [i] exactly when the word the block initially held at
    [2*1024 + i] is not [i + 42]. *)
Theorem rejected_submission_unnoticed drv :
  succeeds drv ->
  result drv atQueueSubmit <> VK_SUCCESS ->
  outcome drv = Some (Return 0) /\
  In printf_success (trace drv) /\
  finalMemory drv = writtenMemory drv /\
  forall i g e,
    In (fprintf_stderr i g e) (trace drv) <->
    0 <= i < elements /\ g = initialMemory drv (2 * elements + i) /\
    e = i + 42 /\ g <> e.
Proof.
  intros Hs Hrej.
  pose proof (succeeds_outcome drv Hs) as Ho.
  assert (Hm : executedMemory drv = writtenMemory drv).
  { unfold executedMemory.
    destruct (Z.eqb_spec (result drv atQueueSubmit) 0) as [E|E];
      [contradiction | reflexivity]. }
  split; [exact Ho|].
  rewrite (trace_complete drv Ho), (finalMemory_complete drv Ho).
  split; [|split; [exact Hm|]].
  - unfold completeTrace, batchCalls.
    apply in_or_app. right. apply in_or_app. right. apply in_or_app. right.
    cbn [In]. do 12 right. left. reflexivity.
  - intros i g e. rewrite report_in_completeTrace by exact I.
    rewrite mismatchReports_In, Hm. unfold elements.
    split; intros (Hi & Hg & He & Hne).
    + rewrite (writtenMemory_at drv i), (writtenMemory_at drv (1024 + i)),
        (writtenMemory_at drv (2 * 1024 + i)) in *.
      repeat case_decide; try lia.
      rewrite int32_small in He by lia.
      repeat split; first [assumption | lia].
    + rewrite (writtenMemory_at drv i), (writtenMemory_at drv (1024 + i)),
        (writtenMemory_at drv (2 * 1024 + i)).
      repeat case_decide; try lia.
      rewrite int32_small by lia.
      repeat split; first [assumption | lia].
Qed.

Lemma rejected_submission_unnoticed_witness :
  outcome rejected_submission_driver = Some (Return 0) /\
  In printf_success (trace rejected_submission_driver) /\
  finalMemory rejected_submission_driver
  = writtenMemory rejected_submission_driver /\
  forall i g e,
    In (fprintf_stderr i g e) (trace rejected_submission_driver) <->
    0 <= i < elements /\
    g = initialMemory rejected_submission_driver (2 * elements + i) /\
    e = i + 42 /\ g <> e.
Proof.
  apply (rejected_submission_unnoticed rejected_submission_driver).
  - split; [repeat (constructor; [reflexivity|]); constructor|].
    split; [vm_compute; discriminate | reflexivity].
  - vm_compute. discriminate.
Defined.

(** ** Runs that end early *)

Lemma flat_map_nil_In {X Y} (f : X -> list Y) l :
  (forall c, In c l -> f c = []) -> flat_map f l = [].
Proof.
  induction l as [|c l IH]; intros H; [reflexivity|].
  cbn [flat_map]. rewrite (H c) by (left; reflexivity).
  apply IH. intros c' Hc'. apply H. right. exact Hc'.
Qed.

Lemma query_not_teardown c : is_query c -> is_teardown_call c = false.
Proof. destruct c; cbn; tauto. Qed.

Lemma report_not_teardown c : is_report c -> is_teardown_call c = false.
Proof. destruct c; cbn; tauto. Qed.

Lemma selectionCalls_not_teardown drv c :
  In c (selectionCalls drv) -> is_teardown_call c = false.
Proof.
  intros Hin. apply query_not_teardown.
  pose proof (selectionCalls_queries VK_QUEUE_COMPUTE_BIT
                (physicalDevices drv) VK_NULL_HANDLE 0 (initialMemory drv))
    as Hq.
  rewrite Forall_forall in Hq. exact (Hq c Hin).
Qed.

Ltac fixed_calls H :=
  cbn [In] in H;
  repeat (destruct H as [<- | H]; [first [reflexivity | discriminate]|]);
  contradiction.

(** Lines 43-466 release nothing but the shader module. *)
Lemma setupCalls_teardown drv c :
  In c (setupCalls drv) -> is_teardown_call c = true ->
  c = vkDestroyShaderModule.
Proof.
  unfold setupCalls. rewrite !in_app_iff. intros [H | [H | H]] Ht.
  - fixed_calls H.
  - rewrite (selectionCalls_not_teardown drv c H) in Ht. discriminate.
  - revert Ht. fixed_calls H.
Qed.

Lemma early_exit_calls drv c :
  outcome drv <> Some (Return 0) ->
  In c (trace drv) -> is_teardown_call c = true -> c = vkDestroyShaderModule.
Proof.
  intros Hne Hin Ht. unfold trace, run, main in Hin.
  apply In_bind in Hin as [Hin | (offsets & Hsetup & Hin)].
  { apply (setupCalls_teardown drv); [|exact Ht].
    exact (cases_In _ _ _ _ _ _ (setup_cases drv) Hin). }
  unfold executeBatch in Hin.
  apply In_bind in Hin as [Hin | ([] & Hwrite & Hin)].
  { apply (cases_In _ _ _ _ _ _ (writeInputs_cases drv _)) in Hin.
    revert Ht. fixed_calls Hin. }
  apply In_bind in Hin as [Hin | ([] & Hsubmit & Hin)].
  { apply (cases_In _ _ _ _ _ _ (submitAndWait_cases drv _ _)) in Hin.
    revert Ht. fixed_calls Hin. }
  apply In_bind in Hin as [Hin | ([] & Hread & Hin)].
  { apply (cases_In _ _ _ _ _ _ (readBack_cases drv _)) in Hin.
    rewrite !in_app_iff in Hin. destruct Hin as [Hin | [Hin | Hin]].
    - revert Ht. fixed_calls Hin.
    - pose proof (verifyLoop_prints (Z.to_nat elements) 0 0 (0 + (0 + elements))
                    (0 + (0 + elements + elements))
                    (mem (submitAndWait drv offsets
                            (mem (writeInputs drv
                                    (mem (setup drv (initialMemory drv)))))))) as Hp.
      rewrite Forall_forall in Hp.
      rewrite (report_not_teardown c (Hp c Hin)) in Ht. discriminate.
    - revert Ht. fixed_calls Hin. }
  exfalso. apply Hne. unfold outcome, run, main, executeBatch.
  rewrite next_bind, Hsetup, next_bind, Hwrite, next_bind, Hsubmit,
    next_bind, Hread.
  reflexivity.
Qed.

(** X4: no error path releases anything.  In a run that does not return 0,
    the only destroy or free call that can have been made is
    vkDestroyShaderModule (made right after pipeline creation), so every
    other object created up to the failing call is left alive; "success" is
    not printed. *)
Theorem early_exit_releases_nothing drv :
  outcome drv <> Some (Return 0) ->
  (forall o, In o (destructionOrder (trace drv)) -> o = o_shaderModule) /\
  ~ In printf_success (trace drv).
Proof.
  intros Hne. split.
  - intros o Ho. unfold destructionOrder in Ho.
    apply in_flat_map in Ho as (c & Hc & Ho).
    assert (Ht : is_teardown_call c = true).
    { unfold is_teardown_call. destruct c; try reflexivity; contradiction Ho. }
    rewrite (early_exit_calls drv c Hne Hc Ht) in Ho.
    destruct Ho as [<- | []]. reflexivity.
  - intros Hin.
    pose proof (early_exit_calls drv printf_success Hne Hin eq_refl) as E.
    discriminate E.
Qed.

Lemma early_exit_releases_nothing_witness :
  (forall o, In o (destructionOrder (trace out_of_memory_driver)) ->
             o = o_shaderModule) /\
  ~ In printf_success (trace out_of_memory_driver).
Proof.
  apply (early_exit_releases_nothing out_of_memory_driver).
  vm_compute. discriminate.
Defined.

(** ** example.cpp *)

Lemma example_ends drv m :
  next (ExampleCpp.main drv m)
  = after_sites drv ExampleCpp.testedSites (inl (Return 0)).
Proof.
  unfold ExampleCpp.main.
  change ExampleCpp.testedSites
    with ([atCreateInstance; atEnumerateCount; atEnumerateDevices;
           atCreateDevice]
          ++ [atCreateDescriptorSetLayout; atCreateComputePipelines]).
  rewrite after_sites_app.
  eapply bind_then; [intros; apply createContext_ends|].
  intros m'. eapply bind_then; [intros; apply createPipeline_ends|].
  reflexivity.
Qed.

(** X7: example.cpp returns the result code of the first of its six tested
    calls that fails, in program order, and 0 when none fails; the results of
    vkCreatePipelineLayout and vkCreateShaderModule play no part. *)
Theorem example_exit_code drv :
  ExampleCpp.outcome drv = Some (ExampleCpp.exitOf drv).
Proof.
  unfold ExampleCpp.outcome, ExampleCpp.run, ExampleCpp.exitOf.
  rewrite example_ends. unfold after_sites.
  destruct (firstFailure drv ExampleCpp.testedSites); reflexivity.
Qed.

Lemma example_complete drv :
  ExampleCpp.outcome drv = Some (Return 0) ->
  ExampleCpp.trace drv = ExampleCpp.completeTrace drv.
Proof.
  intros Ho. unfold ExampleCpp.trace.
  destruct (example_run_cases drv) as [[_ H] | (_ & (o & Hn & Hne) & _)].
  - rewrite H. reflexivity.
  - unfold ExampleCpp.outcome in Ho. rewrite Hn in Ho. congruence.
Qed.

Lemma example_flat_map {X} (f : Call -> list X) drv :
  (forall pd, f (vkGetPhysicalDeviceQueueFamilyProperties pd) = []) ->
  flat_map f (ExampleCpp.completeTrace drv)
  = flat_map f [vkCreateInstance; vkEnumeratePhysicalDevices;
                vkEnumeratePhysicalDevices]
    ++ flat_map f
         [vkCreateDevice (fst (selected drv)) (snd (selected drv));
          vkGetDeviceQueue (snd (selected drv));
          vkCreateDescriptorSetLayout Example.layoutCreated;
          vkCreatePipelineLayout; vkCreateShaderModule;
          vkCreateComputePipelines; vkDestroyShaderModule;
          vkDestroyPipeline; vkDestroyPipelineLayout;
          vkDestroyDescriptorSetLayout; vkDestroyDevice; vkDestroyInstance].
Proof.
  intros Hf. unfold ExampleCpp.completeTrace.
  rewrite !flat_map_app. f_equal.
  rewrite (flat_map_nil_In f (selectionCalls drv)); [reflexivity|].
  intros c Hin.
  pose proof (selectionCalls_queries VK_QUEUE_COMPUTE_BIT
                (physicalDevices drv) VK_NULL_HANDLE 0 (initialMemory drv))
    as Hq.
  rewrite Forall_forall in Hq. specialize (Hq c Hin).
  destruct c; try contradiction. apply Hf.
Qed.

Lemma example_teardownCalls drv :
  teardownCalls (ExampleCpp.completeTrace drv)
  = [vkDestroyShaderModule; vkDestroyPipeline; vkDestroyPipelineLayout;
     vkDestroyDescriptorSetLayout; vkDestroyDevice; vkDestroyInstance].
Proof.
  unfold ExampleCpp.completeTrace.
  change [vkCreateDevice (fst (selected drv)) (snd (selected drv));
          vkGetDeviceQueue (snd (selected drv));
          vkCreateDescriptorSetLayout Example.layoutCreated;
          vkCreatePipelineLayout; vkCreateShaderModule;
          vkCreateComputePipelines; vkDestroyShaderModule;
          vkDestroyPipeline; vkDestroyPipelineLayout;
          vkDestroyDescriptorSetLayout; vkDestroyDevice; vkDestroyInstance]
    with ([vkCreateDevice (fst (selected drv)) (snd (selected drv));
           vkGetDeviceQueue (snd (selected drv));
           vkCreateDescriptorSetLayout Example.layoutCreated;
           vkCreatePipelineLayout; vkCreateShaderModule]
          ++ vkCreateComputePipelines ::
          [vkDestroyShaderModule;
           vkDestroyPipeline; vkDestroyPipelineLayout;
           vkDestroyDescriptorSetLayout; vkDestroyDevice; vkDestroyInstance]).
  rewrite !app_assoc.
  apply teardownCalls_app; reflexivity.
Qed.

(** X8: a run of example.cpp that returns 0 releases every object it
    created.  The shader module goes first, right after the pipeline is
    created from it; the rest of the teardown (lines 245-252) runs in the
    exact reverse of the creation order.  With the shader module counted the
    order is not the reverse one: the pipeline, created after the module, is
    destroyed after it as well. *)
Theorem example_teardown drv :
  ExampleCpp.outcome drv = Some (Return 0) ->
  creationOrder (ExampleCpp.trace drv)
  = [o_instance; o_device; o_setLayout; o_pipelineLayout; o_shaderModule;
     o_pipeline] /\
  destructionOrder (ExampleCpp.trace drv)
  = [o_shaderModule; o_pipeline; o_pipelineLayout; o_setLayout; o_device;
     o_instance] /\
  releases_all (ExampleCpp.trace drv) /\
  reverse_creation_order
    (fun o => negb (bool_decide (o = o_shaderModule)))
    (ExampleCpp.trace drv) /\
  ~ reverse_creation_order (fun _ => true) (ExampleCpp.trace drv).
Proof.
  intros Ho. rewrite (example_complete drv Ho).
  assert (Hcre : creationOrder (ExampleCpp.completeTrace drv)
            = [o_instance; o_device; o_setLayout; o_pipelineLayout;
               o_shaderModule; o_pipeline]).
  { unfold creationOrder. rewrite example_flat_map by reflexivity.
    reflexivity. }
  assert (Hdes : destructionOrder (ExampleCpp.completeTrace drv)
            = [o_shaderModule; o_pipeline; o_pipelineLayout; o_setLayout;
               o_device; o_instance]).
  { unfold destructionOrder. rewrite example_flat_map by reflexivity.
    reflexivity. }
  assert (Hrel : released (ExampleCpp.completeTrace drv)
            = [o_shaderModule; o_pipeline; o_pipelineLayout; o_setLayout;
               o_device; o_instance]).
  { unfold released. rewrite example_teardownCalls. reflexivity. }
  split; [exact Hcre|]. split; [exact Hdes|]. split; [|split].
  - unfold releases_all. rewrite Hcre, Hdes.
    intros o Hin. cbn [In] in Hin.
    repeat (destruct Hin as [<- | Hin]; [cbn; tauto|]). contradiction.
  - unfold reverse_creation_order. rewrite Hrel, Hcre.
    vm_compute. reflexivity.
  - unfold reverse_creation_order. rewrite Hrel, Hcre.
    vm_compute. discriminate.
Qed.

Lemma example_teardown_witness :
  creationOrder (ExampleCpp.trace nominal_driver)
  = [o_instance; o_device; o_setLayout; o_pipelineLayout; o_shaderModule;
     o_pipeline] /\
  destructionOrder (ExampleCpp.trace nominal_driver)
  = [o_shaderModule; o_pipeline; o_pipelineLayout; o_setLayout; o_device;
     o_instance] /\
  releases_all (ExampleCpp.trace nominal_driver) /\
  reverse_creation_order
    (fun o => negb (bool_decide (o = o_shaderModule)))
    (ExampleCpp.trace nominal_driver) /\
  ~ reverse_creation_order (fun _ => true) (ExampleCpp.trace nominal_driver).
Proof.
  apply (example_teardown nominal_driver).
  vm_compute. reflexivity.
Defined.

Lemma createPipeline_stopped drv lb m o c :
  next (createPipeline drv lb m) = inl o ->
  In c (calls (createPipeline drv lb m)) -> destroys c = [].
Proof.
  unfold createPipeline, bind. rewrite !vk_run.
  destruct (result drv atCreateDescriptorSetLayout =? 0);
    cbn [next calls mem call app].
  - destruct (result drv atCreateComputePipelines =? 0);
      cbn [next calls mem call app]; [discriminate|].
    intros _ Hin. fixed_calls Hin.
  - intros _ Hin. fixed_calls Hin.
Qed.

(** X9: when example.cpp returns anything but 0 it has made no destroy call
    at all: every object created before the failing call is left alive. *)
Theorem example_early_exit_releases_nothing drv :
  ExampleCpp.outcome drv <> Some (Return 0) ->
  destructionOrder (ExampleCpp.trace drv) = [].
Proof.
  intros Hne. unfold destructionOrder. apply flat_map_nil_In.
  intros c Hin. unfold ExampleCpp.trace, ExampleCpp.run, ExampleCpp.main in Hin.
  apply In_bind in Hin as [Hin | (sel & Hctx & Hin)].
  { apply (cases_In _ _ _ _ _ _ (createContext_cases drv _)) in Hin.
    rewrite !in_app_iff in Hin. destruct Hin as [Hin | [Hin | Hin]].
    - fixed_calls Hin.
    - pose proof (selectionCalls_queries VK_QUEUE_COMPUTE_BIT
                    (physicalDevices drv) VK_NULL_HANDLE 0 (initialMemory drv))
        as Hq.
      rewrite Forall_forall in Hq. specialize (Hq c Hin).
      destruct c; try contradiction. reflexivity.
    - fixed_calls Hin. }
  apply In_bind in Hin as [Hin | ([] & Hpipe & Hin)].
  { destruct (next (createPipeline drv Example.layoutCreated
                      (mem (createContext drv (initialMemory drv)))))
      as [o|[]] eqn:Hn.
    - exact (createPipeline_stopped drv _ _ o c Hn Hin).
    - exfalso. apply Hne.
      unfold ExampleCpp.outcome, ExampleCpp.run, ExampleCpp.main.
      rewrite next_bind, Hctx, next_bind, Hn. reflexivity. }
  exfalso. apply Hne.
  unfold ExampleCpp.outcome, ExampleCpp.run, ExampleCpp.main.
  rewrite next_bind, Hctx, next_bind, Hpipe. reflexivity.
Qed.

Lemma example_early_exit_releases_nothing_witness :
  destructionOrder (ExampleCpp.trace no_pipeline_driver) = [].
Proof.
  apply (example_early_exit_releases_nothing no_pipeline_driver).
  vm_compute. discriminate.
Defined.

(** X10: the first mapping window (lines 470-493) writes the words 0..2047
    of the block and nothing else: the first 1024 words hold their index,
    the next 1024 hold 42 (the store of [-index] through [bData] is
    overwritten in the same iteration), and every other word, the third range
    included, is left as it was.  When vkMapMemory fails nothing is
    written. *)
Theorem writeInputs_footprint drv m x :
  mem (writeInputs drv m) x =
  if result drv atMapMemoryWrite =? 0 then
    if decide (elements <= x < 2 * elements) then 42
    else if decide (0 <= x < elements) then x
    else m x
  else m x.
Proof.
  unfold writeInputs, bind. rewrite vk_run.
  destruct (result drv atMapMemoryWrite =? 0); cbn [next calls mem modify call];
    [|reflexivity].
  unfold elements. rewrite writeLoop_aliased by (cbn; lia).
  change (Z.of_nat (Z.to_nat 1024)) with 1024.
  repeat case_decide; try lia; reflexivity.
Qed.

(** ** What the selection hands to vkCreateDevice *)

Lemma families_split bit props :
  Forall (fun q => ~ has_capability bit q) props \/
  exists fpre f fpost,
    props = fpre ++ f :: fpost /\
    Forall (fun q => ~ has_capability bit q) fpre /\ has_capability bit f.
Proof.
  induction props as [|q rest IH]; [left; constructor|].
  destruct (Z.eq_dec (Z.land (queueFlags q) bit) 0) as [E|E].
  - destruct IH as [IH | (fpre & f & fpost & -> & Hpre & Hf)].
    + left. constructor; [|exact IH]. unfold has_capability. tauto.
    + right. exists (q :: fpre), f, fpost. split; [reflexivity|].
      split; [|exact Hf]. constructor; [|exact Hpre].
      unfold has_capability. tauto.
  - right. exists [], q, rest. split; [reflexivity|].
    split; [constructor | exact E].
Qed.

Lemma devices_split bit devs :
  Forall (incapable bit) devs \/
  exists pre d post fpre f fpost,
    devs = pre ++ d :: post /\ Forall (incapable bit) pre /\
    queueFamilyProperties d = fpre ++ f :: fpost /\
    Forall (fun q => ~ has_capability bit q) fpre /\ has_capability bit f.
Proof.
  induction devs as [|d rest IH]; [left; constructor|].
  destruct (families_split bit (queueFamilyProperties d))
    as [Hd | (fpre & f & fpost & Hq & Hpre & Hf)].
  - destruct IH as [IH | (pre & d' & post & fpre & f & fpost & -> & H)].
    + left. constructor; assumption.
    + right. exists (d :: pre), d', post, fpre, f, fpost.
      split; [reflexivity|]. destruct H as (Hp & H).
      split; [constructor; assumption | exact H].
  - right. exists [], d, rest, fpre, f, fpost.
    split; [reflexivity|]. split; [constructor|]. tauto.
Qed.

(** X11: for devices with non-null handles and fewer than 2^32 queue
    families each, whatever the loop yields is sound: either the null handle
    with index 0, and then no device has a family with the capability, or the
    handle of an enumerated device together with the index of a family of
    that same device that has the capability. *)
Theorem selectDevice_sound bit devs h q :
  Forall (fun d => handle d <> VK_NULL_HANDLE /\
                   Z.of_nat (length (queueFamilyProperties d)) <= 2 ^ 32)
         devs ->
  selectDevice bit devs = (h, q) ->
  (h = VK_NULL_HANDLE /\ q = 0 /\ Forall (incapable bit) devs) \/
  (exists d f, In d devs /\ handle d = h /\ 0 <= q /\
               queueFamilyProperties d !! Z.to_nat q = Some f /\
               has_capability bit f).
Proof.
  intros Hwf Hsel.
  destruct (devices_split bit devs)
    as [Hnone | (pre & d & post & fpre & f & fpost & -> & Hpre & Hq & Hfpre & Hf)].
  - left. rewrite (selectDevice_none bit devs Hnone) in Hsel.
    injection Hsel as <- <-. tauto.
  - right. exists d, f.
    apply Forall_app in Hwf as [_ Hwf].
    apply Forall_cons_iff in Hwf as [[Hh Hlen] _].
    rewrite Hq, length_app in Hlen. cbn [length] in Hlen.
    unfold selectDevice in Hsel.
    rewrite selectDeviceLoop_skip in Hsel by exact Hpre.
    cbn [selectDeviceLoop] in Hsel.
    rewrite Hq, (findQueueFamily_first bit fpre f fpost 0) in Hsel
      by first [assumption | lia].
    apply Z.eqb_neq in Hh. rewrite Hh in Hsel. injection Hsel as <- <-.
    split; [apply in_or_app; right; left; reflexivity|].
    split; [reflexivity|]. split; [lia|]. split; [|exact Hf].
    rewrite Hq. change (0 + Z.of_nat (length fpre)) with (Z.of_nat (length fpre)).
    rewrite Nat2Z.id. apply list_lookup_middle. reflexivity.
Qed.

Lemma selectDevice_sound_witness :
  (33 = VK_NULL_HANDLE /\ 2 = 0 /\
   Forall (incapable VK_QUEUE_COMPUTE_BIT) three_devices) \/
  (exists d f, In d three_devices /\ handle d = 33 /\ 0 <= 2 /\
               queueFamilyProperties d !! Z.to_nat 2 = Some f /\
               has_capability VK_QUEUE_COMPUTE_BIT f).
Proof.
  apply (selectDevice_sound VK_QUEUE_COMPUTE_BIT three_devices 33 2).
  - repeat constructor; vm_compute; discriminate.
  - reflexivity.
Defined.

(** ** Every run is its script cut at the first failing test *)

Lemma cut_app sc1 sc2 :
  cut (sc1 ++ sc2) = cut sc1 ++ if passes sc1 then cut sc2 else [].
Proof.
  induction sc1 as [|[c|ok] sc1 IH]; cbn [app cut passes forallb andb].
  - reflexivity.
  - fold (passes sc1). rewrite IH. reflexivity.
  - fold (passes sc1). destruct ok; [exact IH | reflexivity].
Qed.

Lemma passes_app sc1 sc2 : passes (sc1 ++ sc2) = passes sc1 && passes sc2.
Proof. apply forallb_app. Qed.

Lemma cut_does l : cut (map does l) = l.
Proof. induction l as [|c l IH]; cbn [map cut]; congruence. Qed.

Lemma passes_does l : passes (map does l) = true.
Proof. induction l as [|c l IH]; [reflexivity | exact IH]. Qed.

Lemma allCalls_does l : allCalls (map does l) = l.
Proof.
  induction l as [|c l IH]; [reflexivity|].
  cbn [map allCalls flat_map app]. fold (allCalls (map does l)). congruence.
Qed.

Section Scripted.
Context {A B : Type}.

Lemma bind_scripted (p : Prog A) (f : A -> Prog B) m sc1 m1 v sc2 m2 r :
  scripted (p m) sc1 m1 (inr v) ->
  scripted (f v m1) sc2 m2 r ->
  scripted (bind p f m) (sc1 ++ sc2) m2 r.
Proof.
  unfold scripted. intros [Hc1 H1] [Hc2 H2].
  rewrite cut_app, passes_app. unfold bind.
  destruct (passes sc1).
  - destruct H1 as [Hm Hn]. rewrite Hn, Hm. cbn [calls mem next andb].
    rewrite Hc1, Hc2. split; [reflexivity | exact H2].
  - destruct H1 as [o [Ho Hne]]. rewrite Ho. cbn [calls mem next andb].
    split; [rewrite app_nil_r; exact Hc1 | exists o; tauto].
Qed.

Lemma ret_scripted (v : A) m : scripted (ret v m) [] m (inr v).
Proof. split; [reflexivity | split; reflexivity]. Qed.

Lemma exit0_scripted m : scripted (@exit A 0 m) [] m (inl (Return 0)).
Proof. split; [reflexivity | split; reflexivity]. Qed.

Lemma guard_scripted (idx : Z) (k : Prog A) m sc m' r :
  scripted (k m) sc m' r ->
  scripted ((if 0 >? idx then exit (bitnot 42) else k) m)
    (needs (0 <=? idx) :: sc) m' r.
Proof.
  intros H. unfold scripted. cbn [cut passes forallb].
  destruct (Z.leb_spec 0 idx) as [Hle|Hlt].
  - assert (E : (0 >? idx) = false) by lia. rewrite E. exact H.
  - assert (E : (0 >? idx) = true) by lia. rewrite E.
    split; [reflexivity|]. eexists. split; [reflexivity | discriminate].
Qed.

Lemma crash_guard_scripted (e : Z) (k : Prog A) m sc m' r :
  scripted (k m) sc m' r ->
  scripted ((if e =? 0 then k else crash) m) (needs (e =? 0) :: sc) m' r.
Proof.
  intros H. unfold scripted. cbn [cut passes forallb].
  destruct (e =? 0); [exact H|].
  split; [reflexivity|]. eexists. split; [reflexivity | discriminate].
Qed.

Lemma scripted_eq (s : Step A) sc sc' m m' r :
  scripted s sc m r -> sc = sc' -> m = m' -> scripted s sc' m' r.
Proof. intros H -> ->. exact H. Qed.
End Scripted.

Lemma call_scripted c m : scripted (call c m) [does c] m (inr tt).
Proof. split; [reflexivity | split; reflexivity]. Qed.

Lemma modify_scripted f m : scripted (modify f m) [] (f m) (inr tt).
Proof. split; [reflexivity | split; reflexivity]. Qed.

Lemma emit_scripted g m : scripted (emit g m) (map does (g m)) m (inr tt).
Proof.
  unfold scripted. rewrite cut_does, passes_does.
  split; [reflexivity | split; reflexivity].
Qed.

Lemma vk_scripted drv c s m :
  scripted (vk drv c s m) (tested drv c s) m (inr tt).
Proof.
  rewrite vk_run. unfold scripted, tested. cbn [cut passes forallb].
  destruct (Z.eqb_spec (result drv s) 0) as [E|E]; cbn [calls mem next andb].
  - split; [reflexivity | split; reflexivity].
  - split; [reflexivity|]. eexists. split; [reflexivity | congruence].
Qed.

Lemma selectDeviceProg_scripted bit devs pd q m :
  scripted (selectDeviceProg bit devs pd q m)
    (map does (calls (selectDeviceProg bit devs pd q m))) m
    (inr (selectDeviceLoop bit devs pd q)).
Proof.
  unfold scripted. rewrite cut_does, passes_does.
  split; [reflexivity|].
  rewrite (selectDeviceProg_step bit devs pd q m). cbn [mem next].
  split; reflexivity.
Qed.

Lemma submitted_scripted (b : bool) f m :
  scripted ((if b then modify f else ret tt) m) [] (if b then f m else m)
    (inr tt).
Proof. destruct b; split; try reflexivity; split; reflexivity. Qed.

Ltac step_scripted :=
  first
    [ apply vk_scripted | apply call_scripted | apply ret_scripted
    | apply exit0_scripted | apply modify_scripted | apply emit_scripted
    | apply selectDeviceProg_scripted | apply submitted_scripted
    | apply guard_scripted | apply crash_guard_scripted
    | eapply bind_scripted ].

Lemma run_scripted drv :
  scripted (run drv) (script drv) (executedMemory drv) (inl (Return 0)).
Proof.
  unfold run, main, setup, executeBatch, createContext, createPipeline,
    createBuffers, allocateAndBind, createDescriptorSet, updateAndRecord,
    writeInputs, submitAndWait, readBack, teardown.
  cbv zeta.
  eapply scripted_eq; [repeat step_scripted | | ].
  - unfold script, tested, selectionCalls, mismatchReports, executedMemory,
      writtenMemory, memoryTypeIndexOf, requiredMemorySizeOf, bindOffsets,
      selected, selectDevice, HOST_VISIBLE_COHERENT.
    cbn [app map fst snd]. rewrite <- ?app_assoc. cbn [app]. reflexivity.
  - unfold executedMemory, writtenMemory, bindOffsets. reflexivity.
Qed.

Lemma allCalls_app sc1 sc2 :
  allCalls (sc1 ++ sc2) = allCalls sc1 ++ allCalls sc2.
Proof. apply flat_map_app. Qed.

(** X12: [main] is straight-line code with early exits.  The calls of a run
    are exactly those of the script of [main] in front of the first test
    that does not pass: each call whose result is tested is the last one
    made when it fails, and no test is skipped.  With the tests left out the
    script is [completeTrace], and every test passes exactly when [main]
    returns 0. *)
Theorem run_follows_script drv :
  trace drv = cut (script drv) /\
  allCalls (script drv) = completeTrace drv /\
  (passes (script drv) = true <-> outcome drv = Some (Return 0)).
Proof.
  destruct (run_scripted drv) as [Hc Hp]. split; [exact Hc|]. split.
  - unfold script, completeTrace, setupCalls, batchCalls, tested.
    rewrite !allCalls_app, !allCalls_does. cbn [allCalls flat_map app].
    rewrite <- ?app_assoc. reflexivity.
  - unfold outcome. destruct (passes (script drv)).
    + destruct Hp as [_ ->]. tauto.
    + destruct Hp as (o & -> & Hne). split; [discriminate | congruence].
Qed.

(** ** The lines printed by the verification loop *)

Lemma verifyLoop_lines n index a b r m :
  0 <= index -> index + Z.of_nat n <= 2 ^ 32 ->
  verifyLoop n index a b r m
  = flat_map (mismatchLine m a b r) (seqZ index (Z.of_nat n)).
Proof.
  revert index. induction n as [|n IH]; intros index H0 Hle.
  - reflexivity.
  - rewrite seqZ_cons by lia. cbn [verifyLoop flat_map].
    fold (mismatchLine m a b r index). f_equal.
    replace (Z.pred (Z.of_nat (S n))) with (Z.of_nat n) by lia.
    destruct (Z.eq_dec (index + 1) (2 ^ 32)) as [E|E].
    + assert (n = 0%nat) as -> by lia. reflexivity.
    + rewrite uint32_small by lia. rewrite IH by lia.
      replace (Z.succ index) with (index + 1) by lia. reflexivity.
Qed.

Lemma stderrLines_reports l : Forall is_report l -> stderrLines l = l.
Proof.
  induction 1 as [|c l Hc _ IH]; [reflexivity|].
  destruct c; try contradiction.
  cbn [stderrLines flat_map app]. fold (stderrLines l). rewrite IH.
  reflexivity.
Qed.

Lemma stderrLines_app l1 l2 :
  stderrLines (l1 ++ l2) = stderrLines l1 ++ stderrLines l2.
Proof. apply flat_map_app. Qed.

Lemma stderrLines_complete drv :
  stderrLines (completeTrace drv) = mismatchReports drv.
Proof.
  assert (Hsel : stderrLines (selectionCalls drv) = []).
  { apply flat_map_nil_In. intros c Hin.
    pose proof (selectionCalls_queries VK_QUEUE_COMPUTE_BIT
                  (physicalDevices drv) VK_NULL_HANDLE 0 (initialMemory drv))
      as Hq.
    rewrite Forall_forall in Hq. specialize (Hq c Hin).
    destruct c; try contradiction. reflexivity. }
  unfold completeTrace, setupCalls, batchCalls.
  rewrite !stderrLines_app, Hsel.
  rewrite (stderrLines_reports (mismatchReports drv))
    by apply verifyLoop_prints.
  cbn [stderrLines flat_map app]. apply app_nil_r.
Qed.

(** X5: in a run that returns 0, what is printed to stderr is, line for
    line and in this order, one line for each index i = 0, 1, ..., 1023 at
    which the word at 2048+i of the block as it is left differs from the
    32-bit sum of the words at i and 1024+i; the line carries the index and
    both values.  An index is printed at most once, and nothing else is
    printed there. *)
Theorem reports_are_mismatches drv :
  outcome drv = Some (Return 0) ->
  stderrLines (trace drv) = mismatchLines (finalMemory drv).
Proof.
  intros Ho.
  rewrite (trace_complete drv Ho), (finalMemory_complete drv Ho).
  rewrite stderrLines_complete. unfold mismatchReports, mismatchLines.
  rewrite verifyLoop_lines by (unfold elements; cbn; lia).
  reflexivity.
Qed.

Lemma reports_are_mismatches_witness :
  stderrLines (trace rejected_submission_driver)
  = mismatchLines (finalMemory rejected_submission_driver).
Proof.
  apply (reports_are_mismatches rejected_submission_driver).
  vm_compute. reflexivity.
Defined.
